(** * Student Assistance: tasks, reminders and exports

    A shallow embedding of the task and reminder logic of [Student-Assistance.py]
    ([list_tasks], the reminder loop of [page_tasks], [tasks_to_ics],
    [notes_to_pdf]) and the properties of its specification, followed by the
    rest of the store and of the pages: the add-task form, [add_task],
    [toggle_task], [delete_task], the accounts, the timetable, the flashcards
    and [delete_note].

    Conventions.
    - A Python [str] of the tasks and accounts is held as the [string] of its
      UTF-8 bytes, so that concatenation of [str] values is concatenation of
      their representations. A [str] that holds a lone surrogate has no UTF-8
      encoding: it is held with the surrogate in the three-byte form
      [ED A0..BF xx] (what the codec writes under [surrogatepass]), and
      [utf8_encode], the [str.encode()] of the calendar export, raises on it.
      Account texts (user names, passwords, salts) are taken without lone
      surrogates, where [encode] is the identity.
    - A Python [str] that travels to the document export is held as the list
      of its code points ([ustr]), because the Latin-1 codec looks at them.
    - Python exceptions are values of [exc]; a computation that can raise
      returns a [result]. *)

From Stdlib Require Import ZArith List String Ascii Bool Lia.
From Stdlib Require Import DecimalString.
From Stdlib Require DecimalPos DecimalZ.
From Stdlib Require Import Sorted Permutation OrderedTypeEx.
Import ListNotations.

Local Open Scope string_scope.
Local Open Scope Z_scope.

(** ** Exceptions *)

Inductive exc : Type :=
| ValueError
| TypeError
| OverflowError
| UnicodeEncodeError.

Inductive result (A : Type) : Type :=
| Ret (a : A)
| Raise (e : exc).

Arguments Ret {A} a.
Arguments Raise {A} e.

Definition bind {A B : Type} (m : result A) (k : A -> result B) : result B :=
  match m with
  | Ret a => k a
  | Raise e => Raise e
  end.

(** [try: body / except Exception: handler] *)
Definition try_except {A : Type} (body : result A) (handler : exc -> result A)
  : result A :=
  match body with
  | Ret a => Ret a
  | Raise e => handler e
  end.

Notation "x <- m ;; k" := (bind m (fun x => k))
  (at level 61, m at next level, right associativity).

Fixpoint foldM {A S : Type} (step : S -> A -> result S) (l : list A) (s : S)
  : result S :=
  match l with
  | [] => Ret s
  | a :: l' => s' <- step s a ;; foldM step l' s'
  end.

(** ** [datetime] and [timedelta]

    A [timedelta] is its number of microseconds.  A [datetime] is the number
    of microseconds of its wall-clock fields since 0001-01-01T00:00:00,
    together with its UTC offset when it is aware ([tzinfo = None] for a
    naive one).  The library keeps both within fixed ranges and raises
    [OverflowError] when arithmetic leaves them. *)

Module Datetime.

Definition US_PER_SECOND : Z := 1000000.
Definition US_PER_MINUTE : Z := 60 * US_PER_SECOND.
Definition US_PER_HOUR : Z := 3600 * US_PER_SECOND.
Definition US_PER_DAY : Z := 86400 * US_PER_SECOND.

(** [date.max.toordinal()] : 9999-12-31 is day 3652059. *)
Definition MAXORDINAL : Z := 3652059.

(** Last representable instant, 9999-12-31T23:59:59.999999. *)
Definition MAX_US : Z := MAXORDINAL * US_PER_DAY - 1.

(** [timedelta.max.days] *)
Definition MAX_DELTA_DAYS : Z := 999999999.

Definition timedelta : Type := Z.

Record datetime : Type := mkdt {
  instant : Z;
  tzinfo : option Z
}.

Definition naive (us : Z) : datetime := mkdt us None.

(** [timedelta(hours=h)] *)
Definition timedelta_hours (h : Z) : result timedelta :=
  let us := h * US_PER_HOUR in
  if (- MAX_DELTA_DAYS <=? us / US_PER_DAY) && (us / US_PER_DAY <=? MAX_DELTA_DAYS)
  then Ret us else Raise OverflowError.

(** [timedelta(days=d)], for a literal within range *)
Definition timedelta_days (d : Z) : timedelta := d * US_PER_DAY.

(** [d - td] for a datetime [d] and a timedelta [td] *)
Definition sub_timedelta (d : datetime) (td : timedelta) : result datetime :=
  let r := instant d - td in
  if (0 <=? r) && (r <=? MAX_US)
  then Ret (mkdt r (tzinfo d)) else Raise OverflowError.

(** [a > b]: naive and aware datetimes cannot be ordered. *)
Definition gt (a b : datetime) : result bool :=
  match tzinfo a, tzinfo b with
  | None, None => Ret (instant b <? instant a)
  | Some oa, Some ob => Ret (instant b - ob <? instant a - oa)
  | _, _ => Raise TypeError
  end.

(** [a - b] for two datetimes *)
Definition sub (a b : datetime) : result timedelta :=
  match tzinfo a, tzinfo b with
  | None, None => Ret (instant a - instant b)
  | Some oa, Some ob => Ret ((instant a - oa) - (instant b - ob))
  | _, _ => Raise TypeError
  end.

(** *** The proleptic Gregorian calendar, as the library computes it *)

Definition is_leap (year : Z) : bool :=
  (year mod 4 =? 0) && (negb (year mod 100 =? 0) || (year mod 400 =? 0)).

Definition days_before_year (year : Z) : Z :=
  let y := year - 1 in
  y * 365 + y / 4 - y / 100 + y / 400.

Definition DAYS_IN_MONTH (month : Z) : Z :=
  match month with
  | 1 => 31 | 2 => 28 | 3 => 31 | 4 => 30 | 5 => 31 | 6 => 30
  | 7 => 31 | 8 => 31 | 9 => 30 | 10 => 31 | 11 => 30 | 12 => 31
  | _ => -1
  end.

Definition DAYS_BEFORE_MONTH (month : Z) : Z :=
  match month with
  | 1 => 0 | 2 => 31 | 3 => 59 | 4 => 90 | 5 => 120 | 6 => 151
  | 7 => 181 | 8 => 212 | 9 => 243 | 10 => 273 | 11 => 304 | 12 => 334
  | _ => -1
  end.

Definition days_in_month (year month : Z) : Z :=
  if (month =? 2) && is_leap year then 29 else DAYS_IN_MONTH month.

Definition days_before_month (year month : Z) : Z :=
  DAYS_BEFORE_MONTH month + (if (2 <? month) && is_leap year then 1 else 0).

Definition ymd2ord (year month day : Z) : Z :=
  days_before_year year + days_before_month year month + day.

Definition DI400Y : Z := 146097.
Definition DI100Y : Z := 36524.
Definition DI4Y : Z := 1461.

Definition ord2ymd (ordinal : Z) : Z * Z * Z :=
  let n := ordinal - 1 in
  let n400 := n / DI400Y in
  let n := n mod DI400Y in
  let year := n400 * 400 + 1 in
  let n100 := n / DI100Y in
  let n := n mod DI100Y in
  let n4 := n / DI4Y in
  let n := n mod DI4Y in
  let n1 := n / 365 in
  let n := n mod 365 in
  let year := year + n100 * 100 + n4 * 4 + n1 in
  if (n1 =? 4) || (n100 =? 4) then (year - 1, 12, 31)
  else
    let leapyear := (n1 =? 3) && (negb (n4 =? 24) || (n100 =? 3)) in
    let month := Z.shiftr (n + 50) 5 in
    let preceding :=
      DAYS_BEFORE_MONTH month + (if (2 <? month) && leapyear then 1 else 0) in
    if n <? preceding then
      let month := month - 1 in
      let preceding :=
        preceding
        - (DAYS_IN_MONTH month + (if (month =? 2) && leapyear then 1 else 0)) in
      (year, month, n - preceding + 1)
    else (year, month, n - preceding + 1).

(** The constructor [datetime(year, month, day, hour, minute, second)],
    which checks every field. *)
Definition make (year month day hour minute second : Z) : result datetime :=
  if (1 <=? year) && (year <=? 9999) && (1 <=? month) && (month <=? 12)
     && (1 <=? day) && (day <=? days_in_month year month)
     && (0 <=? hour) && (hour <=? 23) && (0 <=? minute) && (minute <=? 59)
     && (0 <=? second) && (second <=? 59)
  then Ret (naive ((ymd2ord year month day - 1) * US_PER_DAY
                   + hour * US_PER_HOUR + minute * US_PER_MINUTE
                   + second * US_PER_SECOND))
  else Raise ValueError.

(** *** Printing *)

Definition digit (d : Z) : ascii := ascii_of_nat (48 + Z.to_nat (d mod 10)).

Definition pad2 (n : Z) : string :=
  String (digit (n / 10)) (String (digit n) EmptyString).

(** [str(n)] for an [int] *)
Definition str_int (n : Z) : string := NilZero.string_of_int (Z.to_int n).

(** [%Y], as the C library prints it: the year in decimal, without padding
    (four digits from the year 1000 on, fewer before). *)
Definition fmt_year (y : Z) : string := str_int y.

(** [d.strftime('%Y%m%dT%H%M%S')] *)
Definition strftime_basic (d : datetime) : string :=
  let '(y, m, dd) := ord2ymd (instant d / US_PER_DAY + 1) in
  let r := instant d mod US_PER_DAY in
  fmt_year y ++ pad2 m ++ pad2 dd ++ "T"
  ++ pad2 (r / US_PER_HOUR) ++ pad2 (r mod US_PER_HOUR / US_PER_MINUTE)
  ++ pad2 (r mod US_PER_MINUTE / US_PER_SECOND).

End Datetime.

Import Datetime.

(** ** Task rows

    The tuple [(id, task, due_date, remind_before_hours, done, created_at,
    updated_at)] that [list_tasks] selects.  [due_date] and
    [remind_before_hours] are nullable columns. *)

Record task_row : Type := mkTask {
  tid : Z;
  task : string;
  due_date : option string;
  remind_before : option Z;
  done : Z;
  created_at : string;
  updated_at : string
}.

(** Truth value of a nullable text: [None] and the empty text are false. *)
Definition truthy (o : option string) : bool :=
  match o with
  | Some (String _ _) => true
  | _ => false
  end.

Definition text_of (o : option string) : string :=
  match o with
  | Some s => s
  | None => ""
  end.

(** [n or 0] for a nullable integer *)
Definition or0 (o : option Z) : Z :=
  match o with
  | Some n => n
  | None => 0
  end.

(** ** ISO texts the application writes

    [page_tasks] stores [datetime.combine(due, time_val).isoformat()], that
    is [YYYY-MM-DDTHH:MM:SS], or [due.isoformat()], that is [YYYY-MM-DD].
    [isoformat_parse] reads exactly these two shapes (any one-byte separator
    in place of [T]) and raises [ValueError] on fields out of range.  It is the
    parser used to run the functions below on concrete rows; the theorems hold
    for every behaviour of [datetime.fromisoformat]. *)

Definition digit_val (c : ascii) : option Z :=
  let n := Z.of_nat (nat_of_ascii c) in
  if (48 <=? n) && (n <=? 57) then Some (n - 48) else None.

Fixpoint digits_val (acc : Z) (cs : list ascii) : option Z :=
  match cs with
  | [] => Some acc
  | c :: cs' =>
      match digit_val c with
      | Some d => digits_val (10 * acc + d) cs'
      | None => None
      end
  end.

Definition int_field (cs : list ascii) : result Z :=
  match digits_val 0 cs with
  | Some n => Ret n
  | None => Raise ValueError
  end.

Definition isoformat_parse (s : string) : result datetime :=
  match list_ascii_of_string s with
  | [y1; y2; y3; y4; "-"; m1; m2; "-"; d1; d2]%char =>
      y <- int_field [y1; y2; y3; y4] ;;
      m <- int_field [m1; m2] ;;
      d <- int_field [d1; d2] ;;
      make y m d 0 0 0
  | [y1; y2; y3; y4; "-"; m1; m2; "-"; d1; d2; _;
     h1; h2; ":"; mi1; mi2; ":"; s1; s2]%char =>
      y <- int_field [y1; y2; y3; y4] ;;
      m <- int_field [m1; m2] ;;
      d <- int_field [d1; d2] ;;
      hh <- int_field [h1; h2] ;;
      mi <- int_field [mi1; mi2] ;;
      ss <- int_field [s1; s2] ;;
      make y m d hh mi ss
  | _ => Raise ValueError
  end.

(** ** Reminders and the calendar export *)

(** [remind_time > now and (remind_time - now) < horizon]; Python's [and]
    evaluates its right operand only when the left one is true. *)
Definition is_upcoming (remind_time now : datetime) (horizon : timedelta)
  : result bool :=
  c <- gt remind_time now ;;
  if c then (d <- sub remind_time now ;; Ret (d <? horizon)) else Ret false.

(** [dt_obj - dt.timedelta(hours=remind_before or 0)] *)
Definition remind_time (dt_obj : datetime) (remind_before : option Z)
  : result datetime :=
  td <- timedelta_hours (or0 remind_before) ;;
  sub_timedelta dt_obj td.

(** An element of [upcoming]: [(task, dt_obj, remind_time)]. *)
Definition reminder : Type := (string * datetime * datetime)%type.

(** [str.encode()] on the UTF-8 representation of a text without lone
    surrogates. *)
Definition encode (s : string) : string := s.

(** A lone surrogate, U+D800 to U+DFFF, in the representation: the byte [ED]
    followed by a byte from [A0] to [BF]. *)
Definition is_ED (c : ascii) : bool := (nat_of_ascii c =? 237)%nat.

Definition is_A0_BF (c : ascii) : bool :=
  ((160 <=? nat_of_ascii c) && (nat_of_ascii c <=? 191))%nat.

Definition starts_A0_BF (s : string) : bool :=
  match s with
  | EmptyString => false
  | String c _ => is_A0_BF c
  end.

Fixpoint has_surrogate (s : string) : bool :=
  match s with
  | EmptyString => false
  | String c s' => (is_ED c && starts_A0_BF s') || has_surrogate s'
  end.

(** [s.encode()], the strict UTF-8 codec: it raises on a lone surrogate. *)
Definition utf8_encode (s : string) : result string :=
  if has_surrogate s then Raise UnicodeEncodeError else Ret s.

(** A text of ASCII characters only. *)
Fixpoint ascii7 (s : string) : bool :=
  match s with
  | EmptyString => true
  | String c s' => (nat_of_ascii c <? 128)%nat && ascii7 s'
  end.

Section Tasks.

(** [dt.datetime.fromisoformat]: the parsed value, or the exception. *)
Variable fromisoformat : string -> result datetime.

(** The body of the [try] in [page_tasks]. *)
Definition upcoming_try (now : datetime) (upcoming : list reminder)
    (t : task_row) : result (list reminder) :=
  dt_obj <- fromisoformat (text_of (due_date t)) ;;
  rt <- remind_time dt_obj (remind_before t) ;;
  b <- is_upcoming rt now (timedelta_days 7) ;;
  if b then Ret (upcoming ++ [(task t, dt_obj, rt)])%list else Ret upcoming.

(** One round of the loop of [page_tasks], as far as [upcoming] goes. *)
Definition upcoming_step (now : datetime) (upcoming : list reminder)
    (t : task_row) : result (list reminder) :=
  if truthy (due_date t)
  then try_except (upcoming_try now upcoming t) (fun _ => Ret upcoming)
  else Ret upcoming.

(** The list [upcoming] that [page_tasks] builds from [tasks] at [now]. *)
Definition page_tasks_upcoming (now : datetime) (tasks : list task_row)
  : result (list reminder) :=
  foldM (upcoming_step now) tasks [].

(** The six lines of one event. *)
Definition vevent (tid : Z) (task : string) (dt_obj : datetime)
  : list string :=
  let dtstamp := strftime_basic dt_obj in
  let uid := "task-" ++ str_int tid ++ "@student-assist" in
  [ "BEGIN:VEVENT";
    "UID:" ++ uid;
    "DTSTAMP:" ++ dtstamp ++ "Z";
    "DTSTART:" ++ dtstamp ++ "Z";
    "SUMMARY:" ++ task;
    "END:VEVENT" ].

(** One round of the loop of [tasks_to_ics]. *)
Definition ics_step (lines : list string) (t : task_row)
  : result (list string) :=
  if negb (truthy (due_date t)) then Ret lines
  else
    match fromisoformat (text_of (due_date t)) with
    | Raise _ => Ret lines
    | Ret dt_obj => Ret (lines ++ vevent (tid t) (task t) dt_obj)%list
    end.

Definition ics_header : list string :=
  [ "BEGIN:VCALENDAR"; "VERSION:2.0"; "PRODID:-//StudentAssistance//EN" ].

(** The list [lines] at the [return] of [tasks_to_ics]. *)
Definition ics_lines (tasks : list task_row) : result (list string) :=
  lines <- foldM ics_step tasks ics_header ;;
  Ret (lines ++ ["END:VCALENDAR"])%list.

Definition tasks_to_ics (tasks : list task_row) : result string :=
  lines <- ics_lines tasks ;;
  utf8_encode (String.concat "" lines).

End Tasks.

(** ** What each row contributes

    The vocabulary of the specification: a row is dated when its [due_date]
    is present and parses; [planned] is the reminder a row gives rise to at
    [now], [event_lines] the event it gives rise to in the calendar. *)

Section TaskSpec.

Variable fromisoformat : string -> result datetime.

Definition dated (t : task_row) : option datetime :=
  if truthy (due_date t) then
    match fromisoformat (text_of (due_date t)) with
    | Ret d => Some d
    | Raise _ => None
    end
  else None.

Definition is_dated (t : task_row) : bool :=
  match dated t with Some _ => true | None => false end.

Definition planned (now : datetime) (t : task_row) : list reminder :=
  match dated t with
  | None => []
  | Some d =>
      match remind_time d (remind_before t) with
      | Raise _ => []
      | Ret rt =>
          match is_upcoming rt now (timedelta_days 7) with
          | Ret true => [(task t, d, rt)]
          | _ => []
          end
      end
  end.

Definition event_lines (t : task_row) : list string :=
  match dated t with
  | None => []
  | Some d => vevent (tid t) (task t) d
  end.

End TaskSpec.



(** [subseq l1 l2]: [l1] is [l2] with some elements left out, order kept. *)
Inductive subseq {A : Type} : list A -> list A -> Prop :=
| subseq_nil : subseq [] []
| subseq_skip : forall x l1 l2, subseq l1 l2 -> subseq l1 (x :: l2)
| subseq_keep : forall x l1 l2, subseq l1 l2 -> subseq (x :: l1) (x :: l2).

Definition description (r : reminder) : string := fst (fst r).

(** ** Reading a calendar back

    The reader the specification's round-trip property speaks of, after
    RFC 5545: a calendar is a sequence of content lines, each ended by a line
    break (CRLF; a bare LF is accepted too); an event is the lines between
    [BEGIN:VEVENT] and [END:VEVENT], and a property line is [NAME:value]. *)

Module Ics.

Definition LF : ascii := ascii_of_nat 10.
Definition CR : ascii := ascii_of_nat 13.

Fixpoint content_lines_from (cur : string) (s : string) : list string :=
  match s with
  | EmptyString => [cur]
  | String c s' =>
      if Ascii.eqb c LF then cur :: content_lines_from "" s'
      else if Ascii.eqb c CR then content_lines_from cur s'
      else content_lines_from (cur ++ String c "") s'
  end.

Definition nonempty (s : string) : bool :=
  match s with EmptyString => false | _ => true end.

Definition content_lines (s : string) : list string :=
  filter nonempty (content_lines_from "" s).

(** [value_of name line]: the value of [line] when it is the property [name]. *)
Definition value_of (name line : string) : option string :=
  if String.prefix (name ++ ":") line
  then Some (String.substring (S (String.length name))
                              (String.length line - S (String.length name)) line)
  else None.

Record event : Type := mkEvent {
  uid : option string;
  dtstart : option string;
  summary : option string
}.

Definition triple : Type := (string * string * string)%type.

Definition read_property (e : event) (line : string) : event :=
  match value_of "UID" line, value_of "DTSTART" line, value_of "SUMMARY" line with
  | Some v, _, _ => mkEvent (Some v) (dtstart e) (summary e)
  | _, Some v, _ => mkEvent (uid e) (Some v) (summary e)
  | _, _, Some v => mkEvent (uid e) (dtstart e) (Some v)
  | _, _, _ => e
  end.

Definition close_event (e : event) : list triple :=
  match uid e, dtstart e, summary e with
  | Some u, Some d, Some s => [(u, d, s)]
  | _, _, _ => []
  end.

Fixpoint read_events (cur : option event) (lines : list string) : list triple :=
  match lines with
  | [] => []
  | l :: ls =>
      if String.eqb l "BEGIN:VEVENT"
      then read_events (Some (mkEvent None None None)) ls
      else if String.eqb l "END:VEVENT"
      then match cur with
           | Some e => (close_event e ++ read_events None ls)%list
           | None => read_events None ls
           end
      else match cur with
           | Some e => read_events (Some (read_property e l)) ls
           | None => read_events None ls
           end
  end.

(** The [(UID, DTSTART, SUMMARY)] triples read back from exported bytes. *)
Definition parse (bytes : string) : list triple :=
  read_events None (content_lines bytes).


(** What a calendar with line breaks would hold: the export's own lines,
    each ended by CRLF. *)
Definition crlf_join (lines : list string) : string :=
  String.concat "" (map (fun l => l ++ String CR (String LF "")) lines).

End Ics.

(** The triples of the dated rows, in the order of the rows. *)
Definition expected_triples (fromisoformat : string -> result datetime)
    (tasks : list task_row) : list Ics.triple :=
  flat_map (fun t =>
    match dated fromisoformat t with
    | Some d => [("task-" ++ str_int (tid t) ++ "@student-assist",
                  strftime_basic d ++ "Z", task t)]
    | None => []
    end) tasks.

(** ** The task store: [list_tasks]

    The table [tasks] is the list of its rows in rowid order, each with its
    [user_id].  The query is
    [SELECT ... FROM tasks WHERE user_id=?
     ORDER BY done, COALESCE(due_date,''), updated_at DESC].
    Integers compare as integers, texts byte by byte (the default collation),
    a text that is a proper prefix of another coming first. *)

Definition tasks_table : Type := list (Z * task_row).

(** [COALESCE(x, d)] *)
Definition coalesce (o : option string) (d : string) : string :=
  match o with
  | Some s => s
  | None => d
  end.

(** The three sort keys, in turn; the third is descending. *)
Definition order_by_cmp (a b : task_row) : comparison :=
  match done a ?= done b with
  | Eq =>
      match String.compare (coalesce (due_date a) "") (coalesce (due_date b) "") with
      | Eq => String.compare (updated_at b) (updated_at a)
      | c => c
      end
  | c => c
  end.

Definition order_by_leb (a b : task_row) : bool :=
  match order_by_cmp a b with
  | Gt => false
  | _ => true
  end.

Section InsertionSort.

Context {A : Type} (leb : A -> A -> bool).

Fixpoint insert (x : A) (l : list A) : list A :=
  match l with
  | [] => [x]
  | y :: l' => if leb x y then x :: l else y :: insert x l'
  end.

Fixpoint sort (l : list A) : list A :=
  match l with
  | [] => []
  | x :: l' => insert x (sort l')
  end.

End InsertionSort.

Definition list_tasks (db : tasks_table) (user_id : Z) : list task_row :=
  sort order_by_leb
       (map snd (filter (fun r => fst r =? user_id) db)).

(** The order the specification words: done ascending, then dueAt ascending
    with an absent dueAt after every present one, then updatedAt descending. *)
Definition spec_due_cmp (a b : option string) : comparison :=
  match a, b with
  | Some x, Some y => String.compare x y
  | Some _, None => Lt
  | None, Some _ => Gt
  | None, None => Eq
  end.

Definition spec_order_cmp (a b : task_row) : comparison :=
  match done a ?= done b with
  | Eq =>
      match spec_due_cmp (due_date a) (due_date b) with
      | Eq => String.compare (updated_at b) (updated_at a)
      | c => c
      end
  | c => c
  end.

Definition spec_order_leb (a b : task_row) : bool :=
  match spec_order_cmp a b with
  | Gt => false
  | _ => true
  end.

(** ** The document export: [notes_to_pdf] *)

Module Notes.

(** A [str] as the list of its code points. *)
Definition ustr : Type := list Z.

Definition lit (s : string) : ustr :=
  map (fun c => Z.of_nat (nat_of_ascii c)) (list_ascii_of_string s).

(** The tuple [(id, title, content, attachment, created_at, updated_at)]. *)
Record note_row : Type := mkNote {
  nid : Z;
  title : ustr;
  content : ustr;
  attachment : option ustr;
  created_at : ustr;
  updated_at : ustr
}.

(** [s.split('T')[0]]: the text before the first [T]. *)
Fixpoint before_T (s : ustr) : ustr :=
  match s with
  | [] => []
  | c :: s' => if c =? 84 then [] else c :: before_T s'
  end.

Definition truthy (o : option ustr) : bool :=
  match o with
  | Some (_ :: _) => true
  | _ => false
  end.

Definition text_of (o : option ustr) : ustr :=
  match o with
  | Some s => s
  | None => []
  end.

(** *** The FPDF object

    Modelled from the FPDF library that [pip install fpdf] provides, which is
    not part of this repository: the document is the sequence of calls made
    on it; [cell] and [multi_cell] put their text into the page content, which
    the library keeps as a [str]; when the document is output the page content
    is encoded with the Latin-1 codec in strict mode, and [output(dest='S')]
    returns the finished buffer as a [str] of characters below 256.  Layout,
    fonts, page breaks and compression are not modelled. *)

Inductive call : Type :=
| set_auto_page_break (auto : bool) (margin : Z)
| add_page
| set_font (family style : string) (size : Z)
| cell (w h : Z) (txt : ustr) (ln : Z)
| multi_cell (w h : Z) (txt : ustr)
| ln (h : Z).

Definition FPDF : Type := list call.

(** The text a call puts on the page. *)
Definition shown (c : call) : ustr :=
  match c with
  | cell _ _ txt _ => (txt ++ [10])%list
  | multi_cell _ _ txt => (txt ++ [10])%list
  | _ => []
  end.

(** [s.encode('latin-1')] *)
Definition encode_latin1 (s : ustr) : result (list Z) :=
  if forallb (fun c => (0 <=? c) && (c <=? 255)) s
  then Ret s else Raise UnicodeEncodeError.

(** [pdf.output(dest='S')] *)
Definition output (pdf : FPDF) : result ustr :=
  page <- encode_latin1 (flat_map shown pdf) ;;
  Ret (lit "%PDF-1.3" ++ [10] ++ page ++ lit "%%EOF" ++ [10])%list.

(** The calls of one round of the loop of [notes_to_pdf]. *)
Definition note_calls (n : note_row) : list call :=
  ([ ln 2;
     set_font "Arial" "B" 12;
     multi_cell 0 7 (title n ++ lit " (updated " ++ before_T (updated_at n)
                     ++ lit ")");
     set_font "Arial" "" 11;
     multi_cell 0 6 (content n) ]
   ++ (if truthy (attachment n)
       then [multi_cell 0 6 (lit "Attachment: " ++ text_of (attachment n))]
       else [])
   ++ [ ln 4 ])%list.

Definition notes_to_pdf (notes : list note_row) : result (list Z) :=
  let pdf : FPDF :=
    ([ set_auto_page_break true 15;
       add_page;
       set_font "Arial" "" 14;
       cell 0 8 (lit "Notes Export") 1;
       set_font "Arial" "" 11 ]
     ++ flat_map note_calls notes)%list in
  buffer <- output pdf ;;
  encode_latin1 buffer.

(** The characters of a note that reach the page. *)
Definition exported_text (n : note_row) : ustr :=
  (title n ++ before_T (updated_at n) ++ content n
   ++ (if truthy (attachment n) then text_of (attachment n) else []))%list.

Definition in_latin1 (s : ustr) : bool :=
  forallb (fun c => (0 <=? c) && (c <=? 255)) s.

End Notes.

(** ** Sample rows

    The task of the specification's scenarios and a few companions. *)

Definition essay : task_row :=
  mkTask 1 "Essay" (Some "2025-03-10T09:00:00") (Some 2) 0
         "2025-03-01T08:00:00" "2025-03-01T08:00:00".

Definition gym : task_row :=
  mkTask 2 "Gym" None (Some 0) 0
         "2025-03-02T08:00:00" "2025-03-02T08:00:00".


Definition handed_in : task_row :=
  mkTask 4 "Lab report" (Some "2025-03-12") (Some 24) 1
         "2025-03-04T08:00:00" "2025-03-05T08:00:00".

(** 2025-03-08T09:00:00 and 2025-03-10T09:00:00 *)
Definition now_0308 : datetime := naive 63877021200000000.
Definition due_0310 : datetime := naive 63877194000000000.

(** A description that spells out event lines of its own, and the two rows
    it imitates. *)
Definition forged : task_row :=
  mkTask 1
    "EssayEND:VEVENTBEGIN:VEVENTUID:task-2@student-assistDTSTAMP:20250311T100000ZDTSTART:20250311T100000ZSUMMARY:Quiz"
    (Some "2025-03-10T09:00:00") None 0
    "2025-03-01T08:00:00" "2025-03-01T08:00:00".

Definition quiz : task_row :=
  mkTask 2 "Quiz" (Some "2025-03-11T10:00:00") None 0
         "2025-03-01T08:00:00" "2025-03-01T08:00:00".

Definition sample_table : tasks_table := [(1, essay); (1, gym)].

(** A dated row whose description ends in the lone surrogate U+D800. *)
Definition unpaired : task_row :=
  mkTask 5
    ("Quiz " ++ String (ascii_of_nat 237)
                  (String (ascii_of_nat 160) (String (ascii_of_nat 128) "")))
    (Some "2025-03-10T09:00:00") None 0
    "2025-03-01T08:00:00" "2025-03-01T08:00:00".

Definition lecture (i : Z) : Notes.note_row :=
  Notes.mkNote i (Notes.lit "Lecture") (Notes.lit "Read chapter 3") None
               (Notes.lit "2025-03-01T08:00:00") (Notes.lit "2025-03-02T08:00:00").

Definition nine_notes : list Notes.note_row :=
  map lecture [1; 2; 3; 4; 5; 6; 7; 8; 9].

(** A note whose content is the euro sign, U+20AC. *)
Definition priced : Notes.note_row :=
  Notes.mkNote 10 (Notes.lit "Budget") [8364] None
               (Notes.lit "2025-03-01T08:00:00") (Notes.lit "2025-03-02T08:00:00").

(** ** The listing order, spelled out

    [listed_before a b]: [a] may stand before [b] in the result of
    [list_tasks]. The due key of a row without due date is the empty text. *)

Definition text_lt (x y : string) : Prop := String.compare x y = Lt.

Definition listed_before (a b : task_row) : Prop :=
  done a < done b
  \/ (done a = done b
      /\ (text_lt (coalesce (due_date a) "") (coalesce (due_date b) "")
          \/ (coalesce (due_date a) "" = coalesce (due_date b) ""
              /\ (text_lt (updated_at b) (updated_at a)
                  \/ updated_at b = updated_at a)))).

(** ** The add-task form of [page_tasks]

    The widgets hand over a [date] (or nothing) and a [time]; the form stores
    [dt.datetime.combine(due, time_val).isoformat()]. *)

Record date : Type := mkdate { year : Z; month : Z; day : Z }.

Record time : Type :=
  mktime { hour : Z; minute : Z; second : Z; microsecond : Z }.

Definition valid_date (d : date) : Prop :=
  1 <= year d <= 9999 /\ 1 <= month d <= 12
  /\ 1 <= day d <= days_in_month (year d) (month d).

Definition valid_time (t : time) : Prop :=
  0 <= hour t <= 23 /\ 0 <= minute t <= 59 /\ 0 <= second t <= 59
  /\ 0 <= microsecond t <= 999999.

(** [dt.datetime.combine(d, t)] for a date and a naive time *)
Definition combine (d : date) (t : time) : datetime :=
  naive ((ymd2ord (year d) (month d) (day d) - 1) * US_PER_DAY
         + hour t * US_PER_HOUR + minute t * US_PER_MINUTE
         + second t * US_PER_SECOND + microsecond t).

(** [%04d] and [%06d] *)
Definition pad4 (n : Z) : string := pad2 (n / 100) ++ pad2 (n mod 100).
Definition pad6 (n : Z) : string := pad2 (n / 10000) ++ pad4 (n mod 10000).

(** The UTC offset as [isoformat] prints it: [+HH:MM], with seconds and
    microseconds only when they are not zero. *)
Definition format_offset (tz : option Z) : string :=
  match tz with
  | None => ""
  | Some off =>
      let sign := if off <? 0 then "-" else "+" in
      let off := Z.abs off in
      let hh := off / US_PER_HOUR in
      let mm := off mod US_PER_HOUR / US_PER_MINUTE in
      let ss := off mod US_PER_MINUTE in
      sign ++ pad2 hh ++ ":" ++ pad2 mm
      ++ (if ss =? 0 then ""
          else ":" ++ pad2 (ss / US_PER_SECOND)
               ++ (if ss mod US_PER_SECOND =? 0 then ""
                   else "." ++ pad6 (ss mod US_PER_SECOND)))
  end.

(** [d.isoformat()] for a datetime *)
Definition isoformat (d : datetime) : string :=
  let '(y, m, dd) := ord2ymd (instant d / US_PER_DAY + 1) in
  let r := instant d mod US_PER_DAY in
  pad4 y ++ "-" ++ pad2 m ++ "-" ++ pad2 dd ++ "T"
  ++ pad2 (r / US_PER_HOUR) ++ ":" ++ pad2 (r mod US_PER_HOUR / US_PER_MINUTE)
  ++ ":" ++ pad2 (r mod US_PER_MINUTE / US_PER_SECOND)
  ++ (if r mod US_PER_SECOND =? 0 then ""
      else "." ++ pad6 (r mod US_PER_SECOND))
  ++ format_offset (tzinfo d).

(** [d.isoformat()] for a date *)
Definition date_isoformat (d : date) : string :=
  pad4 (year d) ++ "-" ++ pad2 (month d) ++ "-" ++ pad2 (day d).

(** The text [due_str] the form computes. *)
Definition form_due_str (due : option date) (time_val : time)
  : result (option string) :=
  match due with
  | None => Ret None
  | Some d =>
      s <- try_except (dt_obj <- Ret (combine d time_val) ;;
                       Ret (isoformat dt_obj))
                      (fun _ => Ret (date_isoformat d)) ;;
      Ret (Some s)
  end.

(** The day-and-month part of [ord2ymd], from the day of the year [n]. *)
Definition month_day (year : Z) (leapyear : bool) (n : Z) : Z * Z * Z :=
  let month := Z.shiftr (n + 50) 5 in
  let preceding :=
    DAYS_BEFORE_MONTH month + (if (2 <? month) && leapyear then 1 else 0) in
  if n <? preceding then
    let month := month - 1 in
    let preceding :=
      preceding
      - (DAYS_IN_MONTH month + (if (month =? 2) && leapyear then 1 else 0)) in
    (year, month, n - preceding + 1)
  else (year, month, n - preceding + 1).

(** ** Writing to the store

    A statement that fails leaves the database as it was: the functions below
    return the new database or the error. *)

Inductive sql_error : Type :=
| IntegrityError
| OperationalError
| IntegerTooLarge.

Inductive sql_result (A : Type) : Type :=
| Done (a : A)
| Failed (e : sql_error).

Arguments Done {A} a.
Arguments Failed {A} e.

(** The largest rowid, 2^63 - 1. *)
Definition MAX_ROWID : Z := 9223372036854775807.

(** An [int] that fits SQLite's 64-bit INTEGER.  Binding any other one makes
    the sqlite3 module raise [OverflowError] before the statement runs
    ([IntegerTooLarge]), and nothing is stored. *)
Definition fits_integer (n : Z) : bool :=
  (- MAX_ROWID - 1 <=? n) && (n <=? MAX_ROWID).

(** [INTEGER PRIMARY KEY AUTOINCREMENT]: one more than the largest rowid the
    table has ever held ([seq], kept in sqlite_sequence), and an error once
    the largest possible rowid has been used. *)
Definition next_rowid (ids : list Z) (seq : Z) : sql_result Z :=
  let m := fold_right Z.max seq ids in
  if m <? MAX_ROWID then Done (m + 1) else Failed OperationalError.

(** The table [tasks] with its sequence. *)
Record tasks_db : Type := mkTasksDb {
  tasks_rows : tasks_table;
  tasks_seq : Z
}.

Definition task_ids (rows : tasks_table) : list Z :=
  map (fun r => tid (snd r)) rows.

(** [INSERT INTO tasks(user_id, task, due_date, remind_before_hours,
    created_at, updated_at)]: the two integers are bound first, and one
    outside 64 bits fails the call with nothing stored; then the row gets
    the next rowid. *)
Definition add_task (db : tasks_db) (user_id : Z) (task : string)
    (due_date : option string) (remind_before_hours : option Z)
    (now : string) : sql_result tasks_db :=
  if fits_integer user_id && fits_integer (or0 remind_before_hours) then
    match next_rowid (task_ids (tasks_rows db)) (tasks_seq db) with
    | Failed e => Failed e
    | Done id =>
        Done (mkTasksDb
                (tasks_rows db
                 ++ [(user_id,
                      mkTask id task due_date (Some (or0 remind_before_hours))
                             0 now now)])%list
                id)
    end
  else Failed IntegerTooLarge.

Definition toggle_task (db : tasks_db) (task_id : Z) (done : bool)
    (now : string) : tasks_db :=
  mkTasksDb
    (map (fun r =>
            if tid (snd r) =? task_id
            then (fst r,
                  mkTask (tid (snd r)) (task (snd r)) (due_date (snd r))
                         (remind_before (snd r)) (if done then 1 else 0)
                         (created_at (snd r)) now)
            else r)
         (tasks_rows db))
    (tasks_seq db).

Definition delete_task (db : tasks_db) (task_id : Z) : tasks_db :=
  mkTasksDb (filter (fun r => negb (tid (snd r) =? task_id)) (tasks_rows db))
            (tasks_seq db).

(** Submitting the form: [if submitted and t: ... add_task(...)]. *)
Definition page_tasks_submit (db : tasks_db) (user_id : Z) (t : string)
    (due : option date) (time_val : time) (remind_before : Z) (now : string)
  : sql_result tasks_db :=
  match t with
  | EmptyString => Done db
  | _ =>
      match form_due_str due time_val with
      | Ret due_str => add_task db user_id t due_str (Some remind_before) now
      | Raise _ => Done db
      end
  end.

(** The export button of [page_tasks]: it is drawn only under
    [if upcoming:], and exports the whole snapshot [tasks]. [clicked] is
    [st.button(...)]. [None]: nothing is exported. *)
Definition page_tasks_export (fromisoformat : string -> result datetime)
    (now : datetime) (tasks : list task_row) (clicked : bool)
  : option (result string) :=
  match tasks with
  | [] => None
  | _ =>
      match page_tasks_upcoming fromisoformat now tasks with
      | Ret (_ :: _) =>
          if clicked then Some (tasks_to_ics fromisoformat tasks) else None
      | _ => None
      end
  end.


(** What [toggle_task] makes of one row. *)
Definition toggled (task_id : Z) (done : bool) (now : string)
    (x : task_row) : task_row :=
  if tid x =? task_id
  then mkTask (tid x) (task x) (due_date x) (remind_before x)
              (if done then 1 else 0) (created_at x) now
  else x.

(** An empty task table, and the table after one task was added to it. *)
Definition empty_tasks : tasks_db := mkTasksDb [] 0.

Definition one_task : tasks_db :=
  mkTasksDb
    [(7, mkTask 1 "Essay" (Some "2025-03-10T09:00:00") (Some 0) 0
                "2025-03-01T08:00:00" "2025-03-01T08:00:00")] 1.

(** [ids_in_sequence db]: no id of the table exceeds the sequence. *)
Definition ids_in_sequence (db : tasks_db) : Prop :=
  Forall (fun i => i <= tasks_seq db) (task_ids (tasks_rows db)).

(** The [UID] of a task id. *)
Definition uid_of (tid : Z) : string :=
  "task-" ++ str_int tid ++ "@student-assist".

(** [has_reminder now t]: the row [t] gives a reminder at [now]. *)
Definition has_reminder (fromisoformat : string -> result datetime)
    (now : datetime) (t : task_row) : bool :=
  match planned fromisoformat now t with
  | [] => false
  | _ => true
  end.

(** ** Accounts: [create_user] and [authenticate]

    [hashlib.sha256(b).hexdigest()] and [s.strip().lower()] are library
    functions and stay abstract; [token] is the value of
    [secrets.token_hex(16)] and [now] the value of
    [dt.datetime.utcnow().isoformat()] at the call. *)

Module Users.

Record row : Type := mkUser {
  id : Z;
  username : string;
  salt : string;
  password_hash : string;
  created_at : string
}.

Record table : Type := mkTable {
  rows : list row;
  seq : Z
}.

Definition is_empty (s : string) : bool :=
  match s with
  | EmptyString => true
  | _ => false
  end.

Section Auth.

Variable sha256_hexdigest : string -> string.
Variable strip_lower : string -> string.

Definition hash_password (password salt : string) : string :=
  sha256_hexdigest (encode (salt ++ password)).

(** [INSERT INTO users ...]: the id is drawn first, then [username UNIQUE]
    is enforced. *)
Definition insert_user (db : table) (username salt pwd_hash now : string)
  : sql_result table :=
  match next_rowid (map id (rows db)) (seq db) with
  | Failed e => Failed e
  | Done i =>
      if existsb (fun r => String.eqb (Users.username r) username) (rows db)
      then Failed IntegrityError
      else Done (mkTable (rows db ++ [mkUser i username salt pwd_hash now])%list
                         i)
  end.

Definition create_user (db : table) (username password token now : string)
  : sql_result (table * (bool * string)) :=
  let username := strip_lower username in
  if is_empty username || is_empty password
  then Done (db, (false, "Username and password required."))
  else
    let salt := token in
    let pwd_hash := hash_password password salt in
    match insert_user db username salt pwd_hash now with
    | Done db' => Done (db', (true, "Account created."))
    | Failed IntegrityError => Done (db, (false, "Username already exists."))
    | Failed e => Failed e
    end.

Definition authenticate (db : table) (username password : string)
  : option Z :=
  let username := strip_lower username in
  match find (fun r => String.eqb (Users.username r) username) (rows db) with
  | None => None
  | Some r =>
      if String.eqb (hash_password password (salt r)) (password_hash r)
      then Some (id r)
      else None
  end.

End Auth.

End Users.

(** ** The timetable: [get_timetable] and [save_timetable] *)

Module Timetable.

(** A [dict] keeps its keys in insertion order; [None] stands for
    [KeyError]. *)
Definition dict (K V : Type) : Type := list (K * V).

Definition key : Type := option string.

Definition key_eqb (a b : key) : bool :=
  match a, b with
  | Some x, Some y => String.eqb x y
  | None, None => true
  | _, _ => false
  end.

Fixpoint dict_get {V : Type} (d : dict key V) (k : key) : option V :=
  match d with
  | [] => None
  | (k', v) :: d' => if key_eqb k' k then Some v else dict_get d' k
  end.

Fixpoint dict_set {V : Type} (d : dict key V) (k : key) (v : V)
  : dict key V :=
  match d with
  | [] => [(k, v)]
  | (k', v') :: d' =>
      if key_eqb k' k then (k', v) :: d' else (k', v') :: dict_set d' k v
  end.

(** A row of the table [timetable]; every column but [id] may be NULL. *)
Record row : Type := mkRow {
  id : Z;
  user_id : option Z;
  day : option string;
  slot : option string;
  subject : option string
}.

Definition slots : list string :=
  ["9:00–10:00"; "10:00–11:00"; "11:00–12:00"; "2:00–3:00"].

Definition days : list string := ["Mon"; "Tue"; "Wed"; "Thu"; "Fri"].

Definition grid : Type := dict key (dict key (option string)).

(** [{day: {slot: "" for slot in slots} for day in days}] *)
Definition blank : grid :=
  map (fun day => (Some day, map (fun slot => (Some slot, Some "")) slots))
      days.

(** [table[day][slot] = subject] *)
Definition put (table : grid) (r : row) : option grid :=
  match dict_get table (day r) with
  | None => None
  | Some inner =>
      Some (dict_set table (day r) (dict_set inner (slot r) (subject r)))
  end.

Fixpoint put_all (table : grid) (rs : list row) : option grid :=
  match rs with
  | [] => Some table
  | r :: rs' =>
      match put table r with
      | None => None
      | Some table' => put_all table' rs'
      end
  end.

Definition owned_by (user_id : Z) (r : row) : bool :=
  match Timetable.user_id r with
  | Some u => u =? user_id
  | None => false
  end.

Definition get_timetable (rows : list row) (user_id : Z) : option grid :=
  put_all blank (filter (owned_by user_id) rows).

(** The table as [init_db] creates it has one uniqueness constraint, the
    primary key [id]. *)
Definition unique_constraints : list (list string) := [["id"]].

(** [ON CONFLICT(user_id, day, slot)] *)
Definition conflict_target : list string := ["user_id"; "day"; "slot"].

Definition same_columns (a b : list string) : bool :=
  forallb (fun c => existsb (String.eqb c) b) a
  && forallb (fun c => existsb (String.eqb c) a) b.

Definition same_cell (u : Z) (d s : string) (r : row) : bool :=
  owned_by u r && key_eqb (day r) (Some d) && key_eqb (slot r) (Some s).

(** [INSERT ... ON CONFLICT(user_id, day, slot) DO UPDATE SET subject=...]:
    SQLite refuses the statement unless the conflict target is the column set
    of a uniqueness constraint of the table. *)
Definition execute_upsert (rows : list row) (seq : Z) (u : Z)
    (d s subj : string) : sql_result (list row * Z) :=
  if existsb (same_columns conflict_target) unique_constraints then
    if existsb (same_cell u d s) rows
    then Done (map (fun r => if same_cell u d s r
                             then mkRow (id r) (user_id r) (day r) (slot r)
                                        (Some subj)
                             else r) rows, seq)
    else match next_rowid (map id rows) seq with
         | Failed e => Failed e
         | Done i =>
             Done ((rows ++ [mkRow i (Some u) (Some d) (Some s) (Some subj)])%list,
                   i)
         end
  else Failed OperationalError.

Fixpoint save_cells (st : list row * Z) (u : Z)
    (cells : list (string * string * string)) {struct cells}
  : sql_result (list row * Z) :=
  match cells with
  | [] => Done st
  | (d, s, subj) :: cells' =>
      match execute_upsert (fst st) (snd st) u d s subj with
      | Failed e => Failed e
      | Done st' => save_cells st' u cells'
      end
  end.

(** The cells of [table] in the order of the two loops. *)
Definition cells_of (table : list (string * list (string * string)))
  : list (string * string * string) :=
  flat_map (fun ds => map (fun sv => (fst ds, fst sv, snd sv)) (snd ds)) table.

Definition save_timetable (st : list row * Z) (user_id : Z)
    (table : list (string * list (string * string)))
  : sql_result (list row * Z) :=
  save_cells st user_id (cells_of table).

End Timetable.

(** ** Flashcards: [add_flashcard] and [list_flashcards] *)

Module Cards.

Record row : Type := mkCard {
  id : Z;
  user_id : Z;
  question : string;
  answer : string;
  created_at : string
}.

Record table : Type := mkTable {
  rows : list row;
  seq : Z
}.

Definition add_flashcard (db : table) (user_id : Z)
    (question answer now : string) : sql_result table :=
  match next_rowid (map id (rows db)) (seq db) with
  | Failed e => Failed e
  | Done i =>
      Done (mkTable (rows db ++ [mkCard i user_id question answer now])%list i)
  end.

(** [ORDER BY id DESC] *)
Definition id_desc (a b : row) : bool := id b <=? id a.

Definition list_flashcards (db : table) (user_id : Z)
  : list (Z * string * string) :=
  map (fun r => (id r, question r, answer r))
      (sort id_desc (filter (fun r => Cards.user_id r =? user_id) (rows db))).

End Cards.

(** ** Deleting a note: [delete_note]

    The table [notes] is the list of its rows with their [user_id]. The file
    system is the list of its entries; [Path.exists] holds for files and
    directories alike, [Path.unlink] removes a file and raises on a directory.
    Attachment paths are compared as texts, as [page_notes] stores them. *)

Module NoteStore.

Import Notes.

Inductive entry : Type :=
| File
| Directory.

Definition filesystem : Type := list (ustr * entry).

Fixpoint ustr_eqb (a b : ustr) : bool :=
  match a, b with
  | [], [] => true
  | x :: a', y :: b' => (x =? y) && ustr_eqb a' b'
  | _, _ => false
  end.

(** [p.exists()] *)
Definition path_exists (fs : filesystem) (p : ustr) : bool :=
  existsb (fun e => ustr_eqb (fst e) p) fs.

Inductive os_error : Type :=
| FileNotFoundError
| IsADirectoryError.

(** [p.unlink()] *)
Definition unlink (fs : filesystem) (p : ustr) : filesystem + os_error :=
  match find (fun e => ustr_eqb (fst e) p) fs with
  | None => inr FileNotFoundError
  | Some (_, Directory) => inr IsADirectoryError
  | Some (_, File) => inl (filter (fun e => negb (ustr_eqb (fst e) p)) fs)
  end.

Definition notes_table : Type := list (Z * note_row).

(** The [try] block of [delete_note], with its [except Exception: pass]. *)
Definition remove_attachment (fs : filesystem) (p : ustr) : filesystem :=
  if path_exists fs p then
    match unlink fs p with
    | inl fs' => fs'
    | inr _ => fs
    end
  else fs.

Definition delete_note (db : notes_table) (fs : filesystem) (note_id : Z)
  : notes_table * filesystem :=
  let row := find (fun r => nid (snd r) =? note_id) db in
  let fs' :=
    match row with
    | Some r =>
        if truthy (attachment (snd r))
        then remove_attachment fs (text_of (attachment (snd r)))
        else fs
    | None => fs
    end in
  (filter (fun r => negb (nid (snd r) =? note_id)) db, fs').

End NoteStore.

(** Stand-ins for the two library functions of the accounts, to run them. *)
Definition toy_digest (s : string) : string := "h(" ++ s ++ ")".
Definition toy_strip_lower (s : string) : string := s.

Definition no_users : Users.table := Users.mkTable [] 0.

Definition one_user : Users.table :=
  Users.mkTable
    [Users.mkUser 1 "bob" "00ff" "h(00ffsecret)" "2025-03-01T08:00:00"] 1.

(** * Properties *)

(** ** Time arithmetic *)

Lemma gt_naive (r now : Z) : gt (naive r) (naive now) = Ret (now <? r).
Proof. reflexivity. Qed.

Lemma sub_naive (r now : Z) : sub (naive r) (naive now) = Ret (r - now).
Proof. reflexivity. Qed.

Lemma is_upcoming_naive (r now : Z) (h : timedelta) :
  is_upcoming (naive r) (naive now) h = Ret ((now <? r) && (r - now <? h)).
Proof.
  unfold is_upcoming. rewrite gt_naive. cbn [bind].
  destruct (now <? r); [rewrite sub_naive|]; reflexivity.
Qed.

(** C2. On time-zone-naive timestamps the upcoming test returns true exactly
    when the reminder time is after [now] and less than the horizon away, and
    returns false exactly when the reminder time is at or before [now] or at or
    after [now + horizon]. *)
Theorem is_upcoming_iff (r now : Z) (h : timedelta) :
  (is_upcoming (naive r) (naive now) h = Ret true <-> now < r /\ r - now < h)
  /\ (is_upcoming (naive r) (naive now) h = Ret false
      <-> r <= now \/ now + h <= r).
Proof.
  rewrite is_upcoming_naive.
  destruct (Z.ltb_spec now r) as [Hlt | Hge];
    destruct (Z.ltb_spec (r - now) h) as [Hd | Hd]; cbn [andb];
    (split; (split; [intros E; try discriminate E; lia
                    | intros E; try reflexivity; exfalso; lia])).
Qed.

(** The same test on arbitrary datetimes: it returns true exactly when both
    the comparison and the difference are defined and satisfy the bounds. *)
Lemma is_upcoming_true (r now : datetime) (h : timedelta) :
  is_upcoming r now h = Ret true
  <-> gt r now = Ret true /\ exists d, sub r now = Ret d /\ d < h.
Proof.
  unfold is_upcoming. destruct (gt r now) as [[|]|e]; cbn [bind].
  - destruct (sub r now) as [d|e]; cbn [bind].
    + split.
      * intros E. injection E as E. apply Z.ltb_lt in E. eauto.
      * intros [_ [d' [E Hd]]]. injection E as <-.
        f_equal. now apply Z.ltb_lt.
    + split; [discriminate|]. intros [_ [d [E _]]]. discriminate.
  - split; [discriminate|]. intros [E _]. discriminate.
  - split; [discriminate|]. intros [E _]. discriminate.
Qed.

Lemma timedelta_hours_ok (L : Z) :
  0 <= L -> L * US_PER_HOUR <= MAX_US -> timedelta_hours L = Ret (L * US_PER_HOUR).
Proof.
  intros H0 Hmax. unfold timedelta_hours.
  assert (Hq : 0 <= L * US_PER_HOUR / US_PER_DAY <= MAXORDINAL).
  { unfold MAX_US, MAXORDINAL, US_PER_DAY, US_PER_HOUR, US_PER_SECOND in *.
    split.
    - apply Z.div_pos; lia.
    - apply Z.lt_succ_r. apply Z.div_lt_upper_bound; lia. }
  unfold MAXORDINAL, MAX_DELTA_DAYS in *.
  replace (_ && _) with true; [reflexivity|].
  symmetry. apply andb_true_iff. split; apply Z.leb_le; lia.
Qed.

(** ** The two loops, row by row *)

Lemma foldM_app {A B : Type} (step : list B -> A -> result (list B))
    (g : A -> list B) :
  (forall s a, step s a = Ret (s ++ g a)%list) ->
  forall l s, foldM step l s = Ret (s ++ flat_map g l)%list.
Proof.
  intros Hstep l. induction l as [|a l IH]; intros s; cbn [foldM flat_map].
  - now rewrite app_nil_r.
  - rewrite Hstep. cbn [bind]. rewrite IH. now rewrite <- app_assoc.
Qed.

Lemma flat_map_filter {A B : Type} (p : A -> bool) (g : A -> list B) :
  (forall a, p a = false -> g a = []) ->
  forall l, flat_map g (filter p l) = flat_map g l.
Proof.
  intros Hg l. induction l as [|a l IH]; [reflexivity|].
  cbn [filter flat_map]. destruct (p a) eqn:Hp.
  - cbn [flat_map]. now rewrite IH.
  - rewrite (Hg a Hp). exact IH.
Qed.

Section TaskProperties.

Variable fromisoformat : string -> result datetime.

Lemma upcoming_step_planned now upcoming t :
  upcoming_step fromisoformat now upcoming t
  = Ret (upcoming ++ planned fromisoformat now t)%list.
Proof.
  unfold upcoming_step, upcoming_try, planned, dated.
  destruct (truthy (due_date t)); [|now rewrite app_nil_r].
  destruct (fromisoformat _) as [d|e]; cbn [bind try_except];
    [|now rewrite app_nil_r].
  destruct (remind_time d _) as [rt|e]; cbn [bind try_except];
    [|now rewrite app_nil_r].
  destruct (is_upcoming rt now _) as [[|]|e]; cbn [bind try_except];
    try reflexivity; now rewrite app_nil_r.
Qed.

Lemma ics_step_event_lines lines t :
  ics_step fromisoformat lines t
  = Ret (lines ++ event_lines fromisoformat t)%list.
Proof.
  unfold ics_step, event_lines, dated.
  destruct (truthy (due_date t)); cbn [negb]; [|now rewrite app_nil_r].
  destruct (fromisoformat _) as [d|e]; [reflexivity|now rewrite app_nil_r].
Qed.

Lemma page_tasks_upcoming_flat_map now tasks :
  page_tasks_upcoming fromisoformat now tasks
  = Ret (flat_map (planned fromisoformat now) tasks).
Proof.
  unfold page_tasks_upcoming.
  now rewrite (foldM_app _ _ (upcoming_step_planned now)).
Qed.

Lemma ics_lines_flat_map tasks :
  ics_lines fromisoformat tasks
  = Ret (ics_header ++ flat_map (event_lines fromisoformat) tasks
         ++ ["END:VCALENDAR"])%list.
Proof.
  unfold ics_lines.
  rewrite (foldM_app _ _ ics_step_event_lines). cbn [bind].
  now rewrite <- app_assoc.
Qed.

Lemma planned_undated now t :
  is_dated fromisoformat t = false -> planned fromisoformat now t = [].
Proof. unfold is_dated, planned. now destruct (dated fromisoformat t). Qed.


Lemma planned_descriptions now tasks :
  subseq (map description (flat_map (planned fromisoformat now) tasks))
         (map task tasks).
Proof.
  induction tasks as [|t tasks IH]; [constructor|].
  cbn [flat_map map]. rewrite map_app.
  unfold planned at 1.
  destruct (dated fromisoformat t) as [d|]; [|now constructor].
  destruct (remind_time d _) as [rt|e]; [|now constructor].
  destruct (is_upcoming rt now _) as [[|]|e]; now constructor.
Qed.

End TaskProperties.

(** ** The reminder time *)

(** C3, as the code has it. For a due timestamp [D] and a lead of [L >= 0]
    hours: when [D - L hours] is not before the first representable instant,
    the reminder time is [D] minus exactly [L] hours, with the time zone of
    [D] unchanged; when it is, computing the reminder time raises
    [OverflowError], which the loop of [page_tasks] catches: the round
    leaves [upcoming] as it was, and the row gets no reminder. *)
Theorem remind_time_exact (D L : Z) (tz : option Z) :
  0 <= L -> D <= MAX_US ->
  (0 <= D - L * US_PER_HOUR ->
   remind_time (mkdt D tz) (Some L) = Ret (mkdt (D - L * US_PER_HOUR) tz))
  /\ (D - L * US_PER_HOUR < 0 ->
      remind_time (mkdt D tz) (Some L) = Raise OverflowError
      /\ forall (fromisoformat : string -> result datetime) (now : datetime)
                (upcoming : list reminder) (t : task_row),
           dated fromisoformat t = Some (mkdt D tz) ->
           remind_before t = Some L ->
           upcoming_step fromisoformat now upcoming t = Ret upcoming
           /\ planned fromisoformat now t = []).
Proof.
  intros HL HD.
  assert (HH : 0 < US_PER_HOUR) by reflexivity.
  split.
  - intros Hlow. unfold remind_time. cbn [or0].
    rewrite timedelta_hours_ok by nia. cbn [bind].
    unfold sub_timedelta. cbn [instant tzinfo].
    replace (_ && _) with true; [reflexivity|].
    symmetry. apply andb_true_iff. split; apply Z.leb_le; nia.
  - intros Hlow.
    assert (E : remind_time (mkdt D tz) (Some L) = Raise OverflowError).
    { unfold remind_time, timedelta_hours. cbn [or0].
      destruct (_ && _); cbn [bind]; [|reflexivity].
      unfold sub_timedelta. cbn [instant tzinfo].
      replace (0 <=? D - L * US_PER_HOUR) with false; [reflexivity|].
      symmetry. apply Z.leb_gt. exact Hlow. }
    split; [exact E|].
    intros fromisoformat now upcoming t Hd Hrb.
    assert (P : planned fromisoformat now t = []).
    { unfold planned. now rewrite Hd, Hrb, E. }
    split; [|exact P].
    now rewrite upcoming_step_planned, P, app_nil_r.
Qed.

Lemma remind_time_exact_witness :
  remind_time due_0310 (Some 2) = Ret (naive 63877186800000000)
  /\ remind_time (naive 0) (Some 1) = Raise OverflowError
  /\ upcoming_step isoformat_parse now_0308 []
       (mkTask 6 "Archive" (Some "0001-01-01T00:00:00") (Some 1) 0
               "2025-03-01T08:00:00" "2025-03-01T08:00:00")
     = Ret [].
Proof.
  split; [|split].
  - apply (proj1 (remind_time_exact 63877194000000000 2 None
                    ltac:(lia) ltac:(vm_compute; congruence)));
      vm_compute; congruence.
  - apply (proj2 (remind_time_exact 0 1 None
                    ltac:(lia) ltac:(vm_compute; congruence)));
      vm_compute; reflexivity.
  - apply (proj2 (remind_time_exact 0 1 None
                    ltac:(lia) ltac:(vm_compute; congruence))
                 ltac:(vm_compute; reflexivity));
      vm_compute; reflexivity.
Defined.

(** C3 as stated fails at the lower end of the datetime range: one hour
    before 0001-01-01T00:00:00 is not a datetime, the subtraction raises. *)
Lemma remind_time_underflow :
  isoformat_parse "0001-01-01T00:00:00" = Ret (naive 0)
  /\ remind_time (naive 0) (Some 1) = Raise OverflowError
  /\ remind_time (naive 0) (Some 1) <> Ret (naive (0 - 1 * US_PER_HOUR)).
Proof. repeat split. discriminate. Qed.

(** ** Reminder planning *)

(** C4. For every parser behaviour, task list and [now], the reminder loop
    returns (it never aborts); its result lists what each row contributes, in
    the order of the input rows; the rows whose due date is absent or does not
    parse contribute nothing, so the result is the one of the dated rows alone;
    and the retained descriptions are the input descriptions with some left
    out and none moved. *)
Theorem upcoming_in_input_order
    (fromisoformat : string -> result datetime) (now : datetime)
    (tasks : list task_row) :
  exists out,
    page_tasks_upcoming fromisoformat now tasks = Ret out
    /\ out = flat_map (planned fromisoformat now) tasks
    /\ out = flat_map (planned fromisoformat now)
                      (filter (is_dated fromisoformat) tasks)
    /\ subseq (map description out) (map task tasks).
Proof.
  exists (flat_map (planned fromisoformat now) tasks).
  split; [apply page_tasks_upcoming_flat_map|].
  split; [reflexivity|].
  split; [|apply planned_descriptions].
  symmetry. apply flat_map_filter. intros t. apply planned_undated.
Qed.

(** ** The strict encoder *)

Lemma ascii_not_ED (c : ascii) :
  (nat_of_ascii c <? 128)%nat = true -> is_ED c = false.
Proof.
  unfold is_ED. intros H. apply Nat.ltb_lt in H. apply Nat.eqb_neq. lia.
Qed.

Lemma ascii_not_A0_BF (c : ascii) :
  (nat_of_ascii c <? 128)%nat = true -> is_A0_BF c = false.
Proof.
  unfold is_A0_BF. intros H. apply Nat.ltb_lt in H.
  apply andb_false_iff. left. apply Nat.leb_gt. lia.
Qed.

Lemma ascii7_app (a b : string) : ascii7 (a ++ b) = ascii7 a && ascii7 b.
Proof.
  induction a as [|c a IH]; [reflexivity|].
  cbn [append ascii7]. now rewrite IH, andb_assoc.
Qed.

Lemma has_surrogate_app_l (a b : string) :
  ascii7 a = true -> has_surrogate (a ++ b) = has_surrogate b.
Proof.
  induction a as [|c a IH]; [reflexivity|].
  cbn [ascii7 append has_surrogate]. intros H.
  apply andb_true_iff in H as [Hc Ha].
  now rewrite (ascii_not_ED c Hc), IH.
Qed.

Lemma has_surrogate_app_r (a : string) (c : ascii) (b : string) :
  (nat_of_ascii c <? 128)%nat = true ->
  has_surrogate (a ++ String c b) = has_surrogate a || has_surrogate b.
Proof.
  intros Hc. induction a as [|x a IH].
  - cbn [append has_surrogate]. now rewrite (ascii_not_ED c Hc).
  - cbn [append has_surrogate]. rewrite IH.
    replace (starts_A0_BF (a ++ String c b)) with (starts_A0_BF a).
    + now rewrite orb_assoc.
    + destruct a; [|reflexivity]. cbn. now rewrite (ascii_not_A0_BF c Hc).
Qed.

Lemma app_str_nil_r (s : string) : s ++ "" = s.
Proof. induction s as [|c s IH]; cbn; [reflexivity|now rewrite IH]. Qed.

Lemma app_str_assoc (a b c : string) : a ++ b ++ c = (a ++ b) ++ c.
Proof. induction a as [|x a IH]; cbn; [reflexivity|now rewrite IH]. Qed.

Lemma concat_cons (x : string) (l : list string) :
  String.concat "" (x :: l) = x ++ String.concat "" l.
Proof.
  destruct l; cbn [String.concat append];
    [now rewrite app_str_nil_r|reflexivity].
Qed.

Lemma concat_app (l1 l2 : list string) :
  String.concat "" (l1 ++ l2)
  = String.concat "" l1 ++ String.concat "" l2.
Proof.
  induction l1 as [|x l1 IH]; [reflexivity|].
  rewrite <- app_comm_cons, !concat_cons, IH. apply app_str_assoc.
Qed.

Lemma ascii7_uint (u : Decimal.uint) :
  ascii7 (NilEmpty.string_of_uint u) = true.
Proof.
  induction u; cbn [NilEmpty.string_of_uint ascii7];
    [reflexivity|..]; now rewrite IHu.
Qed.

Lemma ascii7_str_int (n : Z) : ascii7 (str_int n) = true.
Proof.
  unfold str_int, NilZero.string_of_int, NilZero.string_of_uint.
  destruct (Z.to_int n) as [u|u]; cbn [ascii7];
    destruct u; first [reflexivity | apply ascii7_uint].
Qed.

Lemma digit_ascii (n : Z) : (nat_of_ascii (digit n) <? 128)%nat = true.
Proof.
  unfold digit. pose proof (Z.mod_pos_bound n 10 ltac:(lia)) as H.
  rewrite nat_ascii_embedding by lia. apply Nat.ltb_lt. lia.
Qed.

Lemma ascii7_pad2 (n : Z) : ascii7 (pad2 n) = true.
Proof. unfold pad2. cbn [ascii7]. now rewrite !digit_ascii. Qed.

Lemma ascii7_strftime (d : datetime) : ascii7 (strftime_basic d) = true.
Proof.
  unfold strftime_basic, fmt_year.
  destruct (ord2ymd _) as [[y m] dd].
  rewrite !ascii7_app, ascii7_str_int, !ascii7_pad2. reflexivity.
Qed.

(** The text of one event, with the description set apart. *)
Lemma vevent_text (i : Z) (txt : string) (d : datetime) (rest : string) :
  String.concat "" (vevent i txt d) ++ rest
  = ("BEGIN:VEVENT" ++ ("UID:task-" ++ str_int i ++ "@student-assist")
     ++ ("DTSTAMP:" ++ strftime_basic d ++ "Z")
     ++ ("DTSTART:" ++ strftime_basic d ++ "Z") ++ "SUMMARY:")
    ++ txt ++ String "E" ("ND:VEVENT" ++ rest).
Proof.
  unfold vevent. generalize (str_int i) (strftime_basic d). intros u st.
  rewrite !concat_cons. cbn [String.concat].
  rewrite app_str_nil_r, <- !app_str_assoc. reflexivity.
Qed.

Lemma has_surrogate_event (i : Z) (txt : string) (d : datetime)
    (rest : string) :
  has_surrogate (String.concat "" (vevent i txt d) ++ rest)
  = has_surrogate txt || has_surrogate rest.
Proof.
  rewrite vevent_text, has_surrogate_app_l.
  - rewrite has_surrogate_app_r by reflexivity.
    now rewrite has_surrogate_app_l.
  - rewrite !ascii7_app, ascii7_str_int, ascii7_strftime. reflexivity.
Qed.


(** ** The calendar export *)

Lemma tasks_to_ics_returns
    (fromisoformat : string -> result datetime) (tasks : list task_row) :
  tasks_to_ics fromisoformat tasks
  = utf8_encode (String.concat ""
      (ics_header ++ flat_map (event_lines fromisoformat) tasks
       ++ ["END:VCALENDAR"])%list).
Proof. unfold tasks_to_ics. now rewrite ics_lines_flat_map. Qed.

Lemma has_surrogate_events
    (fromisoformat : string -> result datetime) (tasks : list task_row)
    (rest : string) :
  has_surrogate
    (String.concat "" (flat_map (event_lines fromisoformat) tasks) ++ rest)
  = existsb (fun t => is_dated fromisoformat t && has_surrogate (task t))
            tasks
    || has_surrogate rest.
Proof.
  induction tasks as [|t tasks IH]; [reflexivity|].
  cbn [flat_map existsb]. rewrite concat_app, <- app_str_assoc.
  unfold event_lines at 1, is_dated at 1.
  destruct (dated fromisoformat t) as [d|].
  - rewrite has_surrogate_event, IH. cbn [andb]. now rewrite orb_assoc.
  - cbn [String.concat append andb orb]. exact IH.
Qed.

Lemma utf8_encode_export
    (fromisoformat : string -> result datetime) (tasks : list task_row) :
  utf8_encode (String.concat ""
    (ics_header ++ flat_map (event_lines fromisoformat) tasks
     ++ ["END:VCALENDAR"])%list)
  = if existsb (fun t => is_dated fromisoformat t && has_surrogate (task t))
               tasks
    then Raise UnicodeEncodeError
    else Ret (String.concat ""
           (ics_header ++ flat_map (event_lines fromisoformat) tasks
            ++ ["END:VCALENDAR"])%list).
Proof.
  unfold utf8_encode.
  replace (has_surrogate _)
    with (existsb (fun t => is_dated fromisoformat t
                            && has_surrogate (task t)) tasks);
    [reflexivity|].
  rewrite !concat_app, has_surrogate_app_l by reflexivity.
  rewrite has_surrogate_events. cbn. now rewrite orb_false_r.
Qed.

(** C5, as the code has it. For every parser behaviour and task list, the
    lines of the calendar are the three header lines, then for each row in
    input order either nothing (due date absent or not parsable) or the six
    lines of its event, then the closing line: no due date makes the export
    raise, and no dated row is left out.  The export returns these lines run
    together, unless the description of a dated row holds a lone surrogate:
    then the final [encode] raises [UnicodeEncodeError]. *)
Theorem tasks_to_ics_outcome
    (fromisoformat : string -> result datetime) (tasks : list task_row) :
  exists lines,
    ics_lines fromisoformat tasks = Ret lines
    /\ lines
       = ([ "BEGIN:VCALENDAR"; "VERSION:2.0";
            "PRODID:-//StudentAssistance//EN" ]
          ++ flat_map
               (fun t =>
                  match dated fromisoformat t with
                  | None => []
                  | Some d =>
                      [ "BEGIN:VEVENT";
                        "UID:task-" ++ str_int (tid t) ++ "@student-assist";
                        "DTSTAMP:" ++ strftime_basic d ++ "Z";
                        "DTSTART:" ++ strftime_basic d ++ "Z";
                        "SUMMARY:" ++ task t;
                        "END:VEVENT" ]%string
                  end) tasks
          ++ [ "END:VCALENDAR" ])%list
    /\ tasks_to_ics fromisoformat tasks
       = if existsb (fun t => is_dated fromisoformat t
                              && has_surrogate (task t)) tasks
         then Raise UnicodeEncodeError
         else Ret (String.concat "" lines).
Proof.
  eexists. split; [apply ics_lines_flat_map|]. split.
  - reflexivity.
  - rewrite tasks_to_ics_returns. apply utf8_encode_export.
Qed.

(** C5 as stated fails where a description holds a lone surrogate: both rows
    are dated, and the export raises instead of returning bytes. *)
Lemma export_raises_on_surrogate :
  is_dated isoformat_parse essay = true
  /\ is_dated isoformat_parse unpaired = true
  /\ tasks_to_ics isoformat_parse [essay; unpaired]
     = Raise UnicodeEncodeError
  /\ ~ (exists bytes,
          tasks_to_ics isoformat_parse [essay; unpaired] = Ret bytes).
Proof.
  assert (E : tasks_to_ics isoformat_parse [essay; unpaired]
              = Raise UnicodeEncodeError) by (vm_compute; reflexivity).
  split; [vm_compute; reflexivity|].
  split; [vm_compute; reflexivity|].
  split; [exact E|].
  intros [bytes H]. rewrite E in H. discriminate H.
Qed.









(** C1, at one dated row. The export runs its lines together without any
    line break: the bytes are one content line that opens no event, and the
    reader recovers no triple where the row has one. The reader does recover
    it from the same lines once each is ended by a line break. *)
Theorem export_not_reparsable :
  tasks_to_ics isoformat_parse [essay]
  = Ret "BEGIN:VCALENDARVERSION:2.0PRODID:-//StudentAssistance//ENBEGIN:VEVENTUID:task-1@student-assistDTSTAMP:20250310T090000ZDTSTART:20250310T090000ZSUMMARY:EssayEND:VEVENTEND:VCALENDAR"
  /\ (exists bytes, tasks_to_ics isoformat_parse [essay] = Ret bytes
                    /\ Ics.parse bytes = [])
  /\ expected_triples isoformat_parse [essay]
     = [("task-1@student-assist", "20250310T090000Z", "Essay")]
  /\ (exists lines, ics_lines isoformat_parse [essay] = Ret lines
                    /\ Ics.parse (Ics.crlf_join lines)
                       = expected_triples isoformat_parse [essay]).
Proof.
  split; [vm_compute; reflexivity|].
  split; [eexists; split; [vm_compute; reflexivity|vm_compute; reflexivity]|].
  split; [vm_compute; reflexivity|].
  eexists; split; [vm_compute; reflexivity|vm_compute; reflexivity].
Qed.

(** Without line breaks no reader at all can tell these two snapshots apart:
    they hold different triples and export to the same bytes. *)
Lemma export_ambiguous :
  tasks_to_ics isoformat_parse [forged]
  = tasks_to_ics isoformat_parse [essay; quiz]
  /\ expected_triples isoformat_parse [forged]
     <> expected_triples isoformat_parse [essay; quiz].
Proof. split; [vm_compute; reflexivity|vm_compute; discriminate]. Qed.




(** ** The listing order *)

Lemma text_cmp_trans x y z :
  text_lt x y -> text_lt y z -> text_lt x z.
Proof.
  unfold text_lt. intros H1 H2.
  apply String_as_OT.cmp_lt in H1. apply String_as_OT.cmp_lt in H2.
  apply String_as_OT.cmp_lt. eapply String_as_OT.lt_trans; eassumption.
Qed.

Lemma text_cmp_gt x y : String.compare x y = Gt <-> text_lt y x.
Proof.
  unfold text_lt. rewrite (String.compare_antisym y x).
  destruct (String.compare x y); cbn; split; congruence.
Qed.

Lemma text_cmp_eq x y : String.compare x y = Eq <-> x = y.
Proof. apply String_as_OT.cmp_eq. Qed.

Lemma text_lt_irrefl x : ~ text_lt x x.
Proof.
  unfold text_lt. intros H.
  assert (E : String.compare x x = Eq) by now apply text_cmp_eq.
  congruence.
Qed.

Lemma order_by_leb_listed a b :
  order_by_leb a b = true <-> listed_before a b.
Proof.
  unfold order_by_leb, order_by_cmp, listed_before.
  destruct (Z.compare_spec (done a) (done b)) as [Hd | Hd | Hd].
  - destruct (String.compare (coalesce (due_date a) "")
                             (coalesce (due_date b) "")) eqn:Hdue.
    + apply text_cmp_eq in Hdue.
      destruct (String.compare (updated_at b) (updated_at a)) eqn:Hup.
      * apply text_cmp_eq in Hup. intuition.
      * intuition.
      * apply text_cmp_gt in Hup. split; [discriminate|].
        intros [H | [_ [H | [_ [H | H]]]]].
        -- lia.
        -- rewrite Hdue in H. now apply text_lt_irrefl in H.
        -- exfalso. apply (text_lt_irrefl (updated_at a)).
           eapply text_cmp_trans; eassumption.
        -- rewrite H in Hup. now apply text_lt_irrefl in Hup.
    + unfold text_lt. intuition.
    + apply text_cmp_gt in Hdue. split; [discriminate|].
      intros [H | [_ [H | [H _]]]].
      * lia.
      * exfalso. apply (text_lt_irrefl (coalesce (due_date a) "")).
        eapply text_cmp_trans; eassumption.
      * rewrite H in Hdue. now apply text_lt_irrefl in Hdue.
  - intuition.
  - split; [discriminate|]. intros [H | [H _]]; lia.
Qed.

Lemma listed_before_trans a b c :
  listed_before a b -> listed_before b c -> listed_before a c.
Proof.
  unfold listed_before.
  intros [H1 | [H1 H1']] [H2 | [H2 H2']]; try (left; lia).
  right. split; [lia|].
  destruct H1' as [D1 | [D1 U1]], H2' as [D2 | [D2 U2]].
  - left. eapply text_cmp_trans; eassumption.
  - left. now rewrite <- D2.
  - left. now rewrite D1.
  - right. split; [congruence|].
    destruct U1 as [U1 | U1], U2 as [U2 | U2].
    + left. eapply text_cmp_trans; eassumption.
    + left. now rewrite U2.
    + left. now rewrite <- U1.
    + right. congruence.
Qed.

Lemma order_by_leb_total a b :
  order_by_leb a b = false -> order_by_leb b a = true.
Proof.
  unfold order_by_leb, order_by_cmp.
  rewrite (Z.compare_antisym (done a) (done b)).
  rewrite (String.compare_antisym (coalesce (due_date a) "")
                                  (coalesce (due_date b) "")).
  rewrite (String.compare_antisym (updated_at b) (updated_at a)).
  destruct (done a ?= done b); cbn; try congruence.
  destruct (String.compare (coalesce (due_date b) "")
                           (coalesce (due_date a) "")); cbn; try congruence.
  destruct (String.compare (updated_at a) (updated_at b)); cbn; congruence.
Qed.

Section SortProperties.

Context {A : Type} (leb : A -> A -> bool).
Hypothesis leb_total : forall a b, leb a b = false -> leb b a = true.
Hypothesis leb_trans :
  forall a b c, leb a b = true -> leb b c = true -> leb a c = true.

Lemma insert_perm x l : Permutation (x :: l) (insert leb x l).
Proof.
  induction l as [|y l IH]; cbn [insert]; [reflexivity|].
  destruct (leb x y); [reflexivity|].
  rewrite perm_swap. now constructor.
Qed.

Lemma sort_perm l : Permutation l (sort leb l).
Proof.
  induction l as [|x l IH]; cbn [sort]; [constructor|].
  rewrite <- insert_perm. now constructor.
Qed.

Lemma insert_sorted x l :
  StronglySorted (fun a b => leb a b = true) l ->
  StronglySorted (fun a b => leb a b = true) (insert leb x l).
Proof.
  induction 1 as [|y l Hs IH Hall]; cbn [insert].
  - repeat constructor.
  - destruct (leb x y) eqn:Hxy.
    + constructor; [now constructor|].
      constructor; [exact Hxy|].
      eapply Forall_impl; [|exact Hall].
      intros z Hz. eapply leb_trans; eassumption.
    + constructor; [exact IH|].
      eapply Permutation_Forall; [apply insert_perm|].
      constructor; [now apply leb_total|exact Hall].
Qed.

Lemma sort_sorted l :
  StronglySorted (fun a b => leb a b = true) (sort leb l).
Proof.
  induction l as [|x l IH]; cbn [sort]; [constructor|].
  now apply insert_sorted.
Qed.

End SortProperties.

(** C8, as the code has it. For every table and user, [list_tasks] returns
    that user's rows (each once) in an order where every row is
    [listed_before] every later one: done ascending, then the due text
    ascending with an absent due date counted as the empty text, hence before
    every present one, then [updated_at] descending. *)
Theorem list_tasks_order (db : tasks_table) (user_id : Z) :
  StronglySorted listed_before (list_tasks db user_id)
  /\ Permutation (map snd (filter (fun r => fst r =? user_id) db))
                 (list_tasks db user_id)
  /\ (forall a b, order_by_leb a b = true <-> listed_before a b)
  /\ (forall a b due,
        done a = done b -> due_date a = None -> due_date b = Some due ->
        due <> "" -> listed_before a b /\ ~ listed_before b a).
Proof.
  split; [|split; [|split]].
  - unfold list_tasks.
    eapply StronglySorted_ind with
      (P := fun l => StronglySorted listed_before l);
      [constructor| |apply (sort_sorted order_by_leb)].
    + intros a l _ IH Hall. constructor; [exact IH|].
      eapply Forall_impl; [|exact Hall].
      intros b Hb. now apply order_by_leb_listed.
    + exact order_by_leb_total.
    + intros a b c Hab Hbc. apply order_by_leb_listed.
      apply order_by_leb_listed in Hab. apply order_by_leb_listed in Hbc.
      eapply listed_before_trans; eassumption.
  - apply sort_perm.
  - exact order_by_leb_listed.
  - intros a b due Hd Ha Hb Hne.
    assert (Hlt : text_lt "" due) by (destruct due; [congruence|reflexivity]).
    unfold listed_before. rewrite Ha, Hb. cbn [coalesce]. split.
    + right. split; [exact Hd|]. now left.
    + intros [H | [_ [H | [H _]]]].
      * lia.
      * apply (text_lt_irrefl ""). eapply text_cmp_trans; eassumption.
      * congruence.
Qed.

(** C8 as stated fails: [gym] has no due date and [essay] has one, both are
    open; the listing puts [gym] first, the worded order wants it last. *)
Lemma list_tasks_absent_first :
  list_tasks sample_table 1 = [gym; essay]
  /\ spec_order_leb gym essay = false
  /\ ~ Sorted (fun a b => spec_order_leb a b = true) (list_tasks sample_table 1).
Proof.
  assert (E : list_tasks sample_table 1 = [gym; essay])
    by (vm_compute; reflexivity).
  assert (F : spec_order_leb gym essay = false) by (vm_compute; reflexivity).
  split; [exact E|]. split; [exact F|].
  rewrite E. intros H. inversion H as [|a l _ Hd]; subst.
  inversion Hd as [|b l' Hb]; subst. congruence.
Qed.

(** ** The document export *)

Module NotesProperties.

Import Notes.

Lemma in_latin1_app (s1 s2 : ustr) :
  in_latin1 (s1 ++ s2)%list = in_latin1 s1 && in_latin1 s2.
Proof. apply forallb_app. Qed.

Lemma encode_latin1_in (s : ustr) :
  encode_latin1 s = if in_latin1 s then Ret s else Raise UnicodeEncodeError.
Proof. reflexivity. Qed.

Lemma note_calls_latin1 (n : note_row) :
  in_latin1 (flat_map shown (note_calls n)) = in_latin1 (exported_text n).
Proof.
  unfold note_calls, exported_text.
  destruct (truthy (attachment n)); cbn [flat_map shown app];
    rewrite ?in_latin1_app, ?app_nil_r;
    change (in_latin1 (lit " (updated ")) with true;
    change (in_latin1 (lit ")")) with true;
    change (in_latin1 (lit "Attachment: ")) with true;
    change (in_latin1 [10]) with true;
    change (in_latin1 []) with true;
    cbn [andb]; rewrite ?andb_true_r; rewrite ?andb_assoc; reflexivity.
Qed.

Lemma notes_calls_latin1 (notes : list note_row) :
  in_latin1 (flat_map shown (flat_map note_calls notes))
  = forallb (fun n => in_latin1 (exported_text n)) notes.
Proof.
  induction notes as [|n notes IH]; [reflexivity|].
  cbn [flat_map forallb]. rewrite flat_map_app, in_latin1_app.
  now rewrite note_calls_latin1, IH.
Qed.

(** C9, as the code has it. The export returns the document when every
    character that reaches the page (titles, date parts, contents, attachment
    names) is a Latin-1 character, and raises [UnicodeEncodeError] as soon as
    one note holds another character; no character is replaced. *)
Theorem notes_to_pdf_latin1 (notes : list note_row) :
  if forallb (fun n => in_latin1 (exported_text n)) notes
  then exists bytes, notes_to_pdf notes = Ret bytes
  else notes_to_pdf notes = Raise UnicodeEncodeError.
Proof.
  unfold notes_to_pdf, output.
  rewrite flat_map_app, encode_latin1_in, in_latin1_app, notes_calls_latin1.
  change (in_latin1 (flat_map shown _)) with true. cbn [andb].
  destruct (forallb _ notes) eqn:Hall; cbn [bind]; [|reflexivity].
  rewrite encode_latin1_in, ?in_latin1_app.
  rewrite notes_calls_latin1, Hall.
  change (in_latin1 (flat_map shown _)) with true.
  change (in_latin1 (lit "%PDF-1.3")) with true.
  change (in_latin1 (lit "%%EOF")) with true.
  change (in_latin1 [10]) with true.
  cbn [andb]. eauto.
Qed.

(** C9 as stated fails: nine Latin-1 notes export; the same nine followed by
    one note that holds a euro sign do not, the whole export raises. *)
Lemma notes_to_pdf_blocked :
  (exists bytes, notes_to_pdf nine_notes = Ret bytes)
  /\ notes_to_pdf (nine_notes ++ [priced]) = Raise UnicodeEncodeError
  /\ forallb (fun n => in_latin1 (exported_text n)) nine_notes = true.
Proof.
  split; [eexists; vm_compute; reflexivity|].
  split; vm_compute; reflexivity.
Qed.

End NotesProperties.

(** * Further properties *)

(** ** The calendar: [ord2ymd] inverts [ymd2ord] *)

Ltac divmod := Z.to_euclidean_division_equations; lia.

Lemma days_before_year_decomp Y :
  0 <= Y ->
  days_before_year (Y + 1)
  = 146097 * (Y / 400) + 36524 * (Y mod 400 / 100)
    + 1461 * (Y mod 100 / 4) + 365 * (Y mod 4).
Proof.
  intros HY. unfold days_before_year. replace (Y + 1 - 1) with Y by lia.
  divmod.
Qed.

Lemma is_leap_decomp Y :
  0 <= Y ->
  is_leap (Y + 1)
  = (Y mod 4 =? 3) && (negb (Y mod 100 / 4 =? 24) || (Y mod 400 / 100 =? 3)).
Proof.
  intros HY. unfold is_leap.
  assert (E4 : ((Y + 1) mod 4 =? 0) = (Y mod 4 =? 3)).
  { destruct (Z.eqb_spec ((Y + 1) mod 4) 0), (Z.eqb_spec (Y mod 4) 3);
      try reflexivity; exfalso; divmod. }
  rewrite E4. destruct (Z.eqb_spec (Y mod 4) 3) as [H4|H4]; [|reflexivity].
  cbn [andb].
  assert (E100 : ((Y + 1) mod 100 =? 0) = (Y mod 100 / 4 =? 24)).
  { destruct (Z.eqb_spec ((Y + 1) mod 100) 0), (Z.eqb_spec (Y mod 100 / 4) 24);
      try reflexivity; exfalso; divmod. }
  rewrite E100. destruct (Z.eqb_spec (Y mod 100 / 4) 24) as [H100|H100];
    [|reflexivity].
  cbn [negb orb].
  destruct (Z.eqb_spec ((Y + 1) mod 400) 0), (Z.eqb_spec (Y mod 400 / 100) 3);
    try reflexivity; exfalso; divmod.
Qed.

Ltac eval_lits :=
  repeat match goal with
    | |- context [Z.pos ?p - 1] =>
        let v := eval compute in (Z.pos p - 1) in
        change (Z.pos p - 1) with v
    | |- context [Z.pos ?a <? Z.pos ?b] =>
        let v := eval compute in (Z.pos a <? Z.pos b) in
        change (Z.pos a <? Z.pos b) with v
    | |- context [Z.pos ?a =? Z.pos ?b] =>
        let v := eval compute in (Z.pos a =? Z.pos b) in
        change (Z.pos a =? Z.pos b) with v
    | |- context [DAYS_BEFORE_MONTH (Z.pos ?a)] =>
        let v := eval compute in (DAYS_BEFORE_MONTH (Z.pos a)) in
        change (DAYS_BEFORE_MONTH (Z.pos a)) with v
    | |- context [DAYS_IN_MONTH (Z.pos ?a)] =>
        let v := eval compute in (DAYS_IN_MONTH (Z.pos a)) in
        change (DAYS_IN_MONTH (Z.pos a)) with v
    end;
  cbn [andb].

Lemma month_day_spec year m d :
  1 <= m <= 12 -> 1 <= d <= days_in_month year m ->
  month_day year (is_leap year) (days_before_month year m + d - 1)
  = (year, m, d).
Proof.
  intros Hm Hd. unfold month_day, days_before_month, days_in_month in *.
  rewrite Z.shiftr_div_pow2 by lia. change (2 ^ 5) with 32.
  assert (Hcases : m = 1 \/ m = 2 \/ m = 3 \/ m = 4 \/ m = 5 \/ m = 6 \/ m = 7
                   \/ m = 8 \/ m = 9 \/ m = 10 \/ m = 11 \/ m = 12) by lia.
  revert Hd. destruct (is_leap year);
    repeat (destruct Hcases as [-> | Hcases]); try subst m;
    eval_lits; intros Hd;
    match goal with
    | |- context [(?k + 50) / 32] =>
        let q := fresh "q" in
        remember ((k + 50) / 32) as q eqn:Hq;
        assert (Hq' : q = 1 \/ q = 2 \/ q = 3 \/ q = 4 \/ q = 5 \/ q = 6
                      \/ q = 7 \/ q = 8 \/ q = 9 \/ q = 10 \/ q = 11
                      \/ q = 12 \/ q = 13)
          by (subst q; Z.to_euclidean_division_equations; lia);
        repeat (destruct Hq' as [Hq' | Hq']);
          try (exfalso; subst q;
               Z.to_euclidean_division_equations; lia);
          rewrite Hq'; eval_lits;
          repeat match goal with
                 | |- context [?a <? ?b] => destruct (Z.ltb_spec a b)
                 end;
          try (exfalso; lia); f_equal; try lia
    end.
Qed.

Lemma year_digits Y :
  0 <= Y ->
  Y = 400 * (Y / 400) + 100 * (Y mod 400 / 100) + 4 * (Y mod 100 / 4) + Y mod 4
  /\ 0 <= Y / 400 /\ 0 <= Y mod 400 / 100 <= 3
  /\ 0 <= Y mod 100 / 4 <= 24 /\ 0 <= Y mod 4 <= 3.
Proof. intros HY. Z.to_euclidean_division_equations; lia. Qed.

Ltac intro_let name :=
  lazymatch goal with
  | |- (let x := ?e in @?B x) = ?R =>
      pose (name := e); change (B name = R); cbv beta
  end.

Lemma ord2ymd_regular Y k :
  0 <= Y -> 0 <= k <= 364 ->
  ord2ymd (days_before_year (Y + 1) + k + 1)
  = month_day (Y + 1) (is_leap (Y + 1)) k.
Proof.
  intros HY Hk.
  rewrite is_leap_decomp, days_before_year_decomp by exact HY.
  destruct (year_digits Y HY) as (HYeq & Ha & Hb & Hc & He).
  rewrite HYeq at 5.
  generalize dependent (Y / 400). generalize dependent (Y mod 400 / 100).
  generalize dependent (Y mod 100 / 4). generalize dependent (Y mod 4).
  intros e He c Hc b Hb a HYeq Ha.
  cbv delta [ord2ymd DI400Y DI100Y DI4Y] beta.
  intro_let n0. intro_let n400. intro_let r400. intro_let yr0.
  intro_let n100. intro_let r100. intro_let n4. intro_let r4.
  intro_let n1. intro_let r1. intro_let yr.
  assert (E0 : n0 = 146097 * a + 36524 * b + 1461 * c + 365 * e + k)
    by (subst n0; lia).
  assert (E400 : n400 = a /\ r400 = 36524 * b + 1461 * c + 365 * e + k)
    by (subst n400 r400; rewrite E0; Z.to_euclidean_division_equations; lia).
  destruct E400 as [E400 R400].
  assert (E100 : n100 = b /\ r100 = 1461 * c + 365 * e + k)
    by (subst n100 r100; rewrite R400; Z.to_euclidean_division_equations; lia).
  destruct E100 as [E100 R100].
  assert (E4 : n4 = c /\ r4 = 365 * e + k)
    by (subst n4 r4; rewrite R100; Z.to_euclidean_division_equations; lia).
  destruct E4 as [E4 R4].
  assert (E1 : n1 = e /\ r1 = k)
    by (subst n1 r1; rewrite R4; Z.to_euclidean_division_equations; lia).
  destruct E1 as [E1 R1].
  assert (Ey : yr = 400 * a + 100 * b + 4 * c + e + 1)
    by (subst yr yr0; lia).
  clearbody n0 n400 r400 yr0 n100 r100 n4 r4 n1 r1 yr. subst.
  replace (e =? 4) with false by (symmetry; apply Z.eqb_neq; lia).
  replace (b =? 4) with false by (symmetry; apply Z.eqb_neq; lia).
  reflexivity.
Qed.

Lemma ord2ymd_last_day Y :
  0 <= Y -> is_leap (Y + 1) = true ->
  ord2ymd (days_before_year (Y + 1) + 365 + 1) = (Y + 1, 12, 31).
Proof.
  intros HY Hleap.
  rewrite is_leap_decomp in Hleap by exact HY.
  rewrite days_before_year_decomp by exact HY.
  destruct (year_digits Y HY) as (HYeq & Ha & Hb & Hc & He).
  rewrite HYeq at 5.
  remember (Y / 400) as a eqn:Ea. remember (Y mod 400 / 100) as b eqn:Eb.
  remember (Y mod 100 / 4) as c eqn:Ec. remember (Y mod 4) as e eqn:Ee.
  clear Ea Eb Ec Ee.
  apply andb_true_iff in Hleap as [He3 Hcb]. apply Z.eqb_eq in He3. subst e.
  cbv delta [ord2ymd DI400Y DI100Y DI4Y] beta.
  intro_let n0. intro_let n400. intro_let r400. intro_let yr0.
  intro_let n100. intro_let r100. intro_let n4. intro_let r4.
  intro_let n1. intro_let r1. intro_let yr.
  assert (E0 : n0 = 146097 * a + 36524 * b + 1461 * c + 1460)
    by (subst n0; lia).
  assert (E400 : n400 = a /\ r400 = 36524 * b + 1461 * c + 1460)
    by (subst n400 r400; rewrite E0; Z.to_euclidean_division_equations; lia).
  destruct E400 as [E400 R400].
  destruct (Z.eqb_spec c 24) as [Hc24 | Hc24].
  - cbn [negb orb] in Hcb. apply Z.eqb_eq in Hcb. subst b c.
    assert (E100 : n100 = 4 /\ r100 = 0)
      by (subst n100 r100; rewrite R400; now vm_compute).
    destruct E100 as [E100 R100].
    assert (E4 : n4 = 0) by (subst n4; rewrite R100; reflexivity).
    assert (E1 : n1 = 0)
      by (subst n1 r4; rewrite R100; reflexivity).
    assert (Ey : yr = 400 * a + 401) by (subst yr yr0; lia).
    clearbody n0 n400 r400 yr0 n100 r100 n4 r4 n1 r1 yr. subst.
    cbn [Z.eqb Pos.eqb orb]. f_equal. f_equal. lia.
  - assert (E100 : n100 = b /\ r100 = 1461 * c + 1460)
      by (subst n100 r100; rewrite R400;
          Z.to_euclidean_division_equations; lia).
    destruct E100 as [E100 R100].
    assert (E4 : n4 = c /\ r4 = 1460)
      by (subst n4 r4; rewrite R100; Z.to_euclidean_division_equations; lia).
    destruct E4 as [E4 R4].
    assert (E1 : n1 = 4) by (subst n1; rewrite R4; reflexivity).
    assert (Ey : yr = 400 * a + 100 * b + 4 * c + 5)
      by (subst yr yr0; lia).
    clearbody n0 n400 r400 yr0 n100 r100 n4 r4 n1 r1 yr. subst.
    cbn [Z.eqb Pos.eqb orb]. f_equal. f_equal. lia.
Qed.

Lemma day_of_year_bounds year m d :
  1 <= m <= 12 -> 1 <= d <= days_in_month year m ->
  0 <= days_before_month year m + d - 1 <= 364
  \/ (is_leap year = true /\ days_before_month year m + d - 1 = 365).
Proof.
  intros Hm Hd. unfold days_before_month, days_in_month in *.
  assert (Hcases : m = 1 \/ m = 2 \/ m = 3 \/ m = 4 \/ m = 5 \/ m = 6 \/ m = 7
                   \/ m = 8 \/ m = 9 \/ m = 10 \/ m = 11 \/ m = 12) by lia.
  revert Hd. destruct (is_leap year);
    repeat (destruct Hcases as [-> | Hcases]); try subst m;
    eval_lits; intros Hd; lia.
Qed.

Lemma ord2ymd_ymd2ord year m d :
  1 <= year -> 1 <= m <= 12 -> 1 <= d <= days_in_month year m ->
  ord2ymd (ymd2ord year m d) = (year, m, d).
Proof.
  intros Hy Hm Hd. unfold ymd2ord.
  replace year with (year - 1 + 1) at 1 by lia.
  destruct (day_of_year_bounds year m d Hm Hd) as [Hk | [Hleap Hk]].
  - replace (days_before_year (year - 1 + 1) + days_before_month year m + d)
      with (days_before_year (year - 1 + 1)
            + (days_before_month year m + d - 1) + 1) by lia.
    rewrite ord2ymd_regular by lia.
    replace (year - 1 + 1) with year by lia.
    now apply month_day_spec.
  - replace (days_before_year (year - 1 + 1) + days_before_month year m + d)
      with (days_before_year (year - 1 + 1) + 365 + 1) by lia.
    rewrite ord2ymd_last_day;
      [|lia|now replace (year - 1 + 1) with year by lia].
    replace (year - 1 + 1) with year by lia.
    pose proof (month_day_spec year m d Hm Hd) as Hmd.
    rewrite Hk, Hleap in Hmd. vm_compute in Hmd.
    congruence.
Qed.

(** ** What the form stores can be read back *)

Lemma digit_val_digit k : digit_val (digit k) = Some (k mod 10).
Proof.
  unfold digit_val, digit.
  assert (Hk : 0 <= k mod 10 < 10) by (apply Z.mod_pos_bound; lia).
  rewrite nat_ascii_embedding by lia.
  rewrite Nat2Z.inj_add, Z2Nat.id by lia. cbn [Z.of_nat Pos.of_succ_nat].
  replace ((48 <=? _) && (_ <=? 57)) with true.
  - f_equal. change (Z.pos (Pos.of_succ_nat 47)) with 48. lia.
  - symmetry. apply andb_true_iff.
    change (Z.pos (Pos.of_succ_nat 47)) with 48. split; apply Z.leb_le; lia.
Qed.

Lemma int_field_pad2 n :
  0 <= n <= 99 -> int_field [digit (n / 10); digit n] = Ret n.
Proof.
  intros Hn. unfold int_field. cbn [digits_val].
  rewrite !digit_val_digit.
  replace (10 * (10 * 0 + (n / 10) mod 10) + n mod 10) with n by divmod.
  reflexivity.
Qed.

Lemma int_field_pad4 n :
  0 <= n <= 9999 ->
  int_field [digit (n / 100 / 10); digit (n / 100);
             digit (n mod 100 / 10); digit (n mod 100)] = Ret n.
Proof.
  intros Hn. unfold int_field. cbn [digits_val].
  rewrite !digit_val_digit.
  replace (10 * (10 * (10 * (10 * 0 + (n / 100 / 10) mod 10)
                       + (n / 100) mod 10)
                 + (n mod 100 / 10) mod 10) + (n mod 100) mod 10)
    with n by divmod.
  reflexivity.
Qed.

Lemma combine_fields (d : date) (t : time) :
  valid_date d -> valid_time t ->
  instant (combine d t) / US_PER_DAY + 1 = ymd2ord (year d) (month d) (day d)
  /\ instant (combine d t) mod US_PER_DAY / US_PER_HOUR = hour t
  /\ (instant (combine d t) mod US_PER_DAY) mod US_PER_HOUR / US_PER_MINUTE
     = minute t
  /\ (instant (combine d t) mod US_PER_DAY) mod US_PER_MINUTE / US_PER_SECOND
     = second t
  /\ (instant (combine d t) mod US_PER_DAY) mod US_PER_SECOND = microsecond t.
Proof.
  intros _ (Hh & Hm & Hs & Hu). unfold combine. cbn [instant naive].
  generalize (ymd2ord (year d) (month d) (day d)). intros o.
  unfold US_PER_DAY, US_PER_HOUR, US_PER_MINUTE, US_PER_SECOND.
  repeat split; divmod.
Qed.

Lemma combine_ymd (d : date) (t : time) :
  valid_date d -> valid_time t ->
  ord2ymd (instant (combine d t) / US_PER_DAY + 1) = (year d, month d, day d).
Proof.
  intros Hd Ht. destruct (combine_fields d t Hd Ht) as [-> _].
  destruct Hd as (Hy & Hm & Hday). apply ord2ymd_ymd2ord; lia.
Qed.

Lemma isoformat_combine (d : date) (t : time) :
  valid_date d -> valid_time t -> microsecond t = 0 ->
  isoformat (combine d t)
  = pad4 (year d) ++ "-" ++ pad2 (month d) ++ "-" ++ pad2 (day d) ++ "T"
    ++ pad2 (hour t) ++ ":" ++ pad2 (minute t) ++ ":" ++ pad2 (second t).
Proof.
  intros Hd Ht Hus. unfold isoformat.
  rewrite (combine_ymd d t Hd Ht).
  destruct (combine_fields d t Hd Ht) as (_ & -> & -> & -> & ->).
  rewrite Hus. reflexivity.
Qed.

Lemma make_combine (d : date) (t : time) :
  valid_date d -> valid_time t -> microsecond t = 0 ->
  make (year d) (month d) (day d) (hour t) (minute t) (second t)
  = Ret (combine d t).
Proof.
  intros (Hy & Hm & Hday) (Hh & Hmi & Hs & _) Hus. unfold make, combine.
  replace (_ && _) with true.
  - rewrite Hus. do 2 f_equal. lia.
  - symmetry. repeat (apply andb_true_iff; split); apply Z.leb_le; lia.
Qed.

Lemma isoformat_parse_fields y m d hh mi ss :
  0 <= y <= 9999 -> 0 <= m <= 99 -> 0 <= d <= 99 ->
  0 <= hh <= 99 -> 0 <= mi <= 99 -> 0 <= ss <= 99 ->
  isoformat_parse
    (pad4 y ++ "-" ++ pad2 m ++ "-" ++ pad2 d ++ "T"
     ++ pad2 hh ++ ":" ++ pad2 mi ++ ":" ++ pad2 ss)
  = make y m d hh mi ss.
Proof.
  intros Hy Hm Hd Hh Hmi Hs.
  unfold isoformat_parse.
  cbv [pad4 pad2 append list_ascii_of_string].
  rewrite int_field_pad4 by exact Hy. cbn [bind].
  rewrite (int_field_pad2 m) by exact Hm. cbn [bind].
  rewrite (int_field_pad2 d) by exact Hd. cbn [bind].
  rewrite (int_field_pad2 hh) by exact Hh. cbn [bind].
  rewrite (int_field_pad2 mi) by exact Hmi. cbn [bind].
  rewrite (int_field_pad2 ss) by exact Hs. cbn [bind].
  reflexivity.
Qed.

Lemma days_in_month_le_31 (y m : Z) :
  1 <= m <= 12 -> days_in_month y m <= 31.
Proof.
  intros Hm. unfold days_in_month.
  destruct ((m =? 2) && is_leap y); [lia|].
  assert (Hc : m = 1 \/ m = 2 \/ m = 3 \/ m = 4 \/ m = 5 \/ m = 6 \/ m = 7
               \/ m = 8 \/ m = 9 \/ m = 10 \/ m = 11 \/ m = 12) by lia.
  repeat (destruct Hc as [-> | Hc]); try rewrite Hc; cbn; lia.
Qed.

Lemma form_due_str_value (d : date) (t : time) :
  valid_date d -> valid_time t -> microsecond t = 0 ->
  form_due_str (Some d) t
  = Ret (Some (pad4 (year d) ++ "-" ++ pad2 (month d) ++ "-" ++ pad2 (day d)
               ++ "T" ++ pad2 (hour t) ++ ":" ++ pad2 (minute t) ++ ":"
               ++ pad2 (second t)))
  /\ isoformat_parse
       (pad4 (year d) ++ "-" ++ pad2 (month d) ++ "-" ++ pad2 (day d)
        ++ "T" ++ pad2 (hour t) ++ ":" ++ pad2 (minute t) ++ ":"
        ++ pad2 (second t))
     = Ret (combine d t).
Proof.
  intros Hd Ht Hus. split.
  - unfold form_due_str. cbn [bind try_except].
    now rewrite (isoformat_combine d t Hd Ht Hus).
  - pose proof Hd as (Hy & Hm & Hday). pose proof Ht as (Hh & Hmi & Hs & Hu).
    pose proof (days_in_month_le_31 (year d) (month d) Hm) as Hdim.
    rewrite isoformat_parse_fields by lia.
    now apply make_combine.
Qed.

(** X1. A task whose due date and time come from the form's widgets (a valid
    date, a valid time without microseconds) is stored with a due text that
    [isoformat_parse] reads back as the very instant that was entered. *)
Theorem form_due_str_parses (d : date) (t : time) :
  valid_date d -> valid_time t -> microsecond t = 0 ->
  exists s,
    form_due_str (Some d) t = Ret (Some s)
    /\ s = pad4 (year d) ++ "-" ++ pad2 (month d) ++ "-" ++ pad2 (day d)
           ++ "T" ++ pad2 (hour t) ++ ":" ++ pad2 (minute t) ++ ":"
           ++ pad2 (second t)
    /\ isoformat_parse s = Ret (combine d t).
Proof.
  intros Hd Ht Hus.
  destruct (form_due_str_value d t Hd Ht Hus) as [Hform Hparse].
  eexists. split; [exact Hform|]. split; [reflexivity|exact Hparse].
Qed.

Lemma form_due_str_parses_witness :
  exists s,
    form_due_str (Some (mkdate 2025 3 10)) (mktime 9 0 0 0) = Ret (Some s)
    /\ s = "2025-03-10T09:00:00"
    /\ isoformat_parse s = Ret due_0310.
Proof.
  apply (form_due_str_parses (mkdate 2025 3 10) (mktime 9 0 0 0));
    unfold valid_date, valid_time; cbn; lia.
Defined.






(** ** Which reminders are listed *)

Lemma remind_time_inv (d rt : datetime) (rb : option Z) :
  remind_time d rb = Ret rt ->
  instant rt = instant d - or0 rb * US_PER_HOUR /\ tzinfo rt = tzinfo d.
Proof.
  unfold remind_time, timedelta_hours, sub_timedelta.
  destruct (_ && _); cbn [bind]; [|discriminate].
  destruct (_ && _); [|discriminate].
  intros E. injection E as <-. split; reflexivity.
Qed.

(** X3. Every reminder the loop lists comes from a row of the input whose due
    date parses; its reminder time is the due time minus the row's lead in
    hours, in the due time's zone; and against a naive [now] it lies strictly
    after [now] and strictly less than seven days ahead: a reminder that has
    passed, or lies a week or more ahead, is never listed. *)
Theorem upcoming_within_window
    (fromisoformat : string -> result datetime) (now : datetime)
    (tasks : list task_row) (out : list reminder)
    (txt : string) (due rt : datetime) :
  page_tasks_upcoming fromisoformat now tasks = Ret out ->
  In (txt, due, rt) out ->
  exists t,
    In t tasks /\ txt = task t /\ dated fromisoformat t = Some due
    /\ instant rt = instant due - or0 (remind_before t) * US_PER_HOUR
    /\ tzinfo rt = tzinfo due
    /\ (tzinfo now = None ->
        tzinfo due = None
        /\ instant now < instant rt < instant now + 7 * US_PER_DAY).
Proof.
  rewrite page_tasks_upcoming_flat_map. intros E Hin. injection E as <-.
  apply in_flat_map in Hin as (t & Ht & Hin). exists t.
  unfold planned in Hin.
  destruct (dated fromisoformat t) as [d|]; [|contradiction].
  destruct (remind_time d (remind_before t)) as [r|e] eqn:Hr; [|contradiction].
  destruct (is_upcoming r now (timedelta_days 7)) as [[|]|e] eqn:Hup;
    try contradiction.
  destruct Hin as [Hin|[]]. injection Hin as <- <- <-.
  destruct (remind_time_inv _ _ _ Hr) as [Hi Htz].
  repeat (split; [solve [auto]|]).
  intros Hnow. apply is_upcoming_true in Hup as (Hgt & delta & Hsub & Hlt).
  unfold gt in Hgt. unfold sub in Hsub. rewrite Hnow in Hgt, Hsub.
  destruct (tzinfo r) eqn:Hrz; [discriminate|].
  injection Hgt as Hgt. injection Hsub as <-. apply Z.ltb_lt in Hgt.
  unfold timedelta_days in Hlt. split; [congruence|lia].
Qed.

Lemma upcoming_within_window_witness :
  exists t,
    In t [essay; gym] /\ "Essay" = task t
    /\ dated isoformat_parse t = Some due_0310
    /\ instant (naive 63877186800000000)
       = instant due_0310 - or0 (remind_before t) * US_PER_HOUR
    /\ tzinfo (naive 63877186800000000) = tzinfo due_0310
    /\ (tzinfo now_0308 = None ->
        tzinfo due_0310 = None
        /\ instant now_0308 < instant (naive 63877186800000000)
           < instant now_0308 + 7 * US_PER_DAY).
Proof.
  apply (upcoming_within_window isoformat_parse now_0308 [essay; gym]
           [("Essay", due_0310, naive 63877186800000000)]).
  - vm_compute. reflexivity.
  - left. reflexivity.
Defined.

(** ** When the calendar can be exported *)

(** X4. The export button exists only while some reminder is upcoming: with none
    (an empty list, or only overdue, far-off or undated tasks) nothing can be
    exported; with one, a click exports every dated row of the snapshot,
    upcoming or not. Without a click nothing is exported. *)
Theorem export_only_with_reminder
    (fromisoformat : string -> result datetime) (now : datetime)
    (tasks : list task_row) :
  page_tasks_export fromisoformat now tasks true
  = (if existsb (has_reminder fromisoformat now) tasks
     then Some (utf8_encode (String.concat ""
                  (ics_header ++ flat_map (event_lines fromisoformat) tasks
                   ++ ["END:VCALENDAR"])%list))
     else None)
  /\ page_tasks_export fromisoformat now tasks false = None.
Proof.
  unfold page_tasks_export.
  rewrite page_tasks_upcoming_flat_map, tasks_to_ics_returns.
  assert (E : forall l,
             match flat_map (planned fromisoformat now) l with
             | [] => existsb (has_reminder fromisoformat now) l = false
             | _ :: _ => existsb (has_reminder fromisoformat now) l = true
             end).
  { induction l as [|t l IH]; [reflexivity|].
    cbn [flat_map existsb]. unfold has_reminder at 1. unfold has_reminder at 2.
    destruct (planned fromisoformat now t); cbn [app orb];
      [exact IH|reflexivity]. }
  specialize (E tasks).
  destruct tasks as [|t l]; [split; reflexivity|].
  destruct (flat_map (planned fromisoformat now) (t :: l));
    rewrite E; split; reflexivity.
Qed.

(** ** The task store *)

Lemma flat_map_perm {A B : Type} (f : A -> list B) (l l' : list A) :
  Permutation l l' -> Permutation (flat_map f l) (flat_map f l').
Proof.
  induction 1 as [|x l l' _ IH|x y l|l l' l'' _ IH1 _ IH2]; cbn [flat_map].
  - constructor.
  - now apply Permutation_app_head.
  - rewrite !app_assoc. apply Permutation_app_tail, Permutation_app_comm.
  - now transitivity (flat_map f l').
Qed.

Lemma flat_map_map {A B C : Type} (f : B -> list C) (g : A -> B) (l : list A) :
  flat_map f (map g l) = flat_map (fun x => f (g x)) l.
Proof.
  induction l as [|a l IH]; [reflexivity|]. cbn [map flat_map]. now rewrite IH.
Qed.

Lemma list_tasks_In (rows : tasks_table) (user_id : Z) (r : task_row) :
  In r (list_tasks rows user_id) <-> In (user_id, r) rows.
Proof.
  unfold list_tasks. split.
  - intros H. apply (Permutation_in _ (Permutation_sym (sort_perm _ _))) in H.
    apply in_map_iff in H as ([u x] & <- & H).
    apply filter_In in H as [H Hu]. cbn in Hu. apply Z.eqb_eq in Hu.
    now subst u.
  - intros H. apply (Permutation_in _ (sort_perm _ _)).
    apply in_map_iff. exists (user_id, r). split; [reflexivity|].
    apply filter_In. split; [exact H|]. cbn. apply Z.eqb_refl.
Qed.

Lemma fold_max_ge (ids : list Z) (seq : Z) :
  seq <= fold_right Z.max seq ids
  /\ Forall (fun i => i <= fold_right Z.max seq ids) ids.
Proof.
  induction ids as [|i ids [IH1 IH2]]; cbn [fold_right].
  - split; [lia|constructor].
  - split; [lia|]. constructor; [lia|].
    eapply Forall_impl; [|exact IH2]. cbn. intros a Ha. lia.
Qed.

(** X5. Adding a task gives it an id larger than every id in the table and
    larger than the sequence; the owner's listing gains exactly the new row
    (open, with lead [remind_before_hours or 0], both timestamps [now]); every
    other user's listing is unchanged. *)
Theorem add_task_listed (db db' : tasks_db) (user_id : Z) (text : string)
    (due : option string) (rb : option Z) (now : string) :
  add_task db user_id text due rb now = Done db' ->
  exists id,
    tasks_seq db < id /\ tasks_seq db' = id
    /\ Forall (fun i => i < id) (task_ids (tasks_rows db))
    /\ Permutation
         (mkTask id text due (Some (or0 rb)) 0 now now
            :: list_tasks (tasks_rows db) user_id)
         (list_tasks (tasks_rows db') user_id)
    /\ (forall other, other <> user_id ->
          list_tasks (tasks_rows db') other
          = list_tasks (tasks_rows db) other).
Proof.
  unfold add_task, next_rowid.
  destruct (fits_integer _ && fits_integer _); [|discriminate].
  destruct (fold_max_ge (task_ids (tasks_rows db)) (tasks_seq db)) as [Hs Hi].
  destruct (_ <? MAX_ROWID); [|discriminate].
  intros E. injection E as <-. eexists. cbn [tasks_rows tasks_seq].
  split; [|split; [reflexivity|split; [|split]]].
  - lia.
  - eapply Forall_impl; [|exact Hi]. cbn. intros a Ha. lia.
  - unfold list_tasks. rewrite filter_app, map_app. cbn [filter fst].
    rewrite Z.eqb_refl. cbn [map snd].
    rewrite <- sort_perm. rewrite <- (sort_perm order_by_leb) at 1.
    apply Permutation_cons_append.
  - intros other Hne. unfold list_tasks.
    rewrite filter_app. cbn [filter fst].
    replace (user_id =? other) with false
      by (symmetry; apply Z.eqb_neq; congruence).
    now rewrite app_nil_r.
Qed.

Lemma add_task_listed_witness :
  exists id,
    tasks_seq empty_tasks < id /\ tasks_seq one_task = id
    /\ Forall (fun i => i < id) (task_ids (tasks_rows empty_tasks))
    /\ Permutation
         (mkTask id "Essay" (Some "2025-03-10T09:00:00") (Some (or0 None)) 0
                 "2025-03-01T08:00:00" "2025-03-01T08:00:00"
            :: list_tasks (tasks_rows empty_tasks) 7)
         (list_tasks (tasks_rows one_task) 7)
    /\ (forall other, other <> 7 ->
          list_tasks (tasks_rows one_task) other
          = list_tasks (tasks_rows empty_tasks) other).
Proof.
  apply (add_task_listed empty_tasks one_task 7 "Essay"
           (Some "2025-03-10T09:00:00") None "2025-03-01T08:00:00").
  reflexivity.
Defined.

(** X6. Deleting a task removes exactly the rows with that id from every user's
    listing and keeps every other row; the sequence is not wound back. *)
Theorem delete_task_listed (db : tasks_db) (task_id user_id : Z)
    (r : task_row) :
  (In r (list_tasks (tasks_rows (delete_task db task_id)) user_id)
   <-> In r (list_tasks (tasks_rows db) user_id) /\ tid r <> task_id)
  /\ tasks_seq (delete_task db task_id) = tasks_seq db.
Proof.
  split; [|reflexivity].
  rewrite !list_tasks_In. unfold delete_task. cbn [tasks_rows].
  rewrite filter_In. cbn [snd].
  rewrite negb_true_iff, Z.eqb_neq. reflexivity.
Qed.

Lemma toggle_task_rows (db : tasks_db) (task_id : Z) (done : bool)
    (now : string) (user_id : Z) :
  map snd (filter (fun r => fst r =? user_id)
                  (tasks_rows (toggle_task db task_id done now)))
  = map (toggled task_id done now)
        (map snd (filter (fun r => fst r =? user_id) (tasks_rows db))).
Proof.
  unfold toggle_task. cbn [tasks_rows].
  induction (tasks_rows db) as [|[u x] rows IH]; [reflexivity|].
  cbn [map filter fst snd].
  destruct (tid x =? task_id) eqn:Hid; cbn [fst snd];
    destruct (u =? user_id); cbn [map snd]; rewrite ?IH; try reflexivity;
    unfold toggled at 2; cbn [tid]; rewrite Hid; reflexivity.
Qed.

Lemma toggle_task_listed (db : tasks_db) (task_id : Z) (done : bool)
    (now : string) (user_id : Z) :
  Permutation
    (map (toggled task_id done now) (list_tasks (tasks_rows db) user_id))
    (list_tasks (tasks_rows (toggle_task db task_id done now)) user_id).
Proof.
  unfold list_tasks. rewrite toggle_task_rows.
  transitivity (map (toggled task_id done now)
                    (map snd (filter (fun r => fst r =? user_id)
                                     (tasks_rows db)))).
  - apply Permutation_map, Permutation_sym, sort_perm.
  - apply sort_perm.
Qed.

Lemma event_lines_blocks
    (fromisoformat : string -> result datetime) (l : list task_row) :
  flat_map (event_lines fromisoformat) l
  = List.concat
      (flat_map
         (fun t =>
            match dated fromisoformat t with
            | None => []
            | Some d => [vevent (tid t) (task t) d]
            end) l).
Proof.
  induction l as [|t l IH]; [reflexivity|].
  cbn [flat_map]. rewrite List.concat_app, <- IH. unfold event_lines at 1.
  destruct (dated fromisoformat t) as [d|]; [|reflexivity].
  cbn [List.concat]. now rewrite app_nil_r.
Qed.

(** X7. Ticking or unticking a task changes neither which reminders are
    upcoming for its owner nor which events the calendar export writes: the
    reminders before and after are the same up to order; and the lines of the
    export are, before and after, the header, the six-line blocks of the
    dated rows and the closing line, with the same blocks up to order (the
    order of the listing can change with [done]). *)
Theorem toggle_keeps_reminders
    (fromisoformat : string -> result datetime) (now : datetime)
    (db : tasks_db) (task_id : Z) (done : bool) (stamp : string)
    (user_id : Z) :
  exists before after blocks blocks',
    page_tasks_upcoming fromisoformat now
      (list_tasks (tasks_rows db) user_id) = Ret before
    /\ page_tasks_upcoming fromisoformat now
         (list_tasks (tasks_rows (toggle_task db task_id done stamp)) user_id)
       = Ret after
    /\ Permutation before after
    /\ blocks
       = flat_map
           (fun t =>
              match dated fromisoformat t with
              | None => []
              | Some d =>
                  [[ "BEGIN:VEVENT";
                     "UID:task-" ++ str_int (tid t) ++ "@student-assist";
                     "DTSTAMP:" ++ strftime_basic d ++ "Z";
                     "DTSTART:" ++ strftime_basic d ++ "Z";
                     "SUMMARY:" ++ task t;
                     "END:VEVENT" ]%string]
              end)
           (list_tasks (tasks_rows db) user_id)
    /\ blocks'
       = flat_map
           (fun t =>
              match dated fromisoformat t with
              | None => []
              | Some d =>
                  [[ "BEGIN:VEVENT";
                     "UID:task-" ++ str_int (tid t) ++ "@student-assist";
                     "DTSTAMP:" ++ strftime_basic d ++ "Z";
                     "DTSTART:" ++ strftime_basic d ++ "Z";
                     "SUMMARY:" ++ task t;
                     "END:VEVENT" ]%string]
              end)
           (list_tasks (tasks_rows (toggle_task db task_id done stamp))
                       user_id)
    /\ Permutation blocks blocks'
    /\ ics_lines fromisoformat (list_tasks (tasks_rows db) user_id)
       = Ret (ics_header ++ List.concat blocks ++ ["END:VCALENDAR"])%list
    /\ ics_lines fromisoformat
         (list_tasks (tasks_rows (toggle_task db task_id done stamp)) user_id)
       = Ret (ics_header ++ List.concat blocks' ++ ["END:VCALENDAR"])%list
    /\ tasks_to_ics fromisoformat (list_tasks (tasks_rows db) user_id)
       = utf8_encode (String.concat ""
           (ics_header ++ List.concat blocks ++ ["END:VCALENDAR"])%list)
    /\ tasks_to_ics fromisoformat
         (list_tasks (tasks_rows (toggle_task db task_id done stamp)) user_id)
       = utf8_encode (String.concat ""
           (ics_header ++ List.concat blocks' ++ ["END:VCALENDAR"])%list).
Proof.
  do 4 eexists. rewrite !page_tasks_upcoming_flat_map.
  split; [reflexivity|]. split; [reflexivity|].
  pose proof (toggle_task_listed db task_id done stamp user_id) as HP.
  split.
  { rewrite <- (flat_map_perm _ _ _ HP), flat_map_map.
    erewrite flat_map_ext; [reflexivity|].
    intros x. unfold toggled. now destruct (tid x =? task_id). }
  split; [reflexivity|]. split; [reflexivity|].
  split.
  { rewrite <- (flat_map_perm _ _ _ HP), flat_map_map.
    erewrite flat_map_ext; [reflexivity|].
    intros x. unfold toggled. now destruct (tid x =? task_id). }
  rewrite !tasks_to_ics_returns, !ics_lines_flat_map, !event_lines_blocks.
  repeat split; reflexivity.
Qed.

Lemma add_task_listed_ids (db db' : tasks_db) (user_id : Z) (text : string)
    (due : option string) (rb : option Z) (now : string) :
  add_task db user_id text due rb now = Done db' ->
  exists id,
    tasks_seq db < id /\ tasks_seq db' = id
    /\ Forall (fun i => i < id) (task_ids (tasks_rows db))
    /\ task_ids (tasks_rows db') = (task_ids (tasks_rows db) ++ [id])%list.
Proof.
  unfold add_task, next_rowid.
  destruct (fits_integer _ && fits_integer _); [|discriminate].
  destruct (fold_max_ge (task_ids (tasks_rows db)) (tasks_seq db)) as [Hs Hi].
  destruct (_ <? MAX_ROWID); [|discriminate].
  intros E. injection E as <-. eexists. cbn [tasks_rows tasks_seq].
  split; [|split; [reflexivity|split]].
  - lia.
  - eapply Forall_impl; [|exact Hi]. cbn. intros a Ha. lia.
  - unfold task_ids. now rewrite map_app.
Qed.

Lemma toggle_task_ids (db : tasks_db) (task_id : Z) (done : bool)
    (now : string) :
  task_ids (tasks_rows (toggle_task db task_id done now))
  = task_ids (tasks_rows db).
Proof.
  unfold task_ids, toggle_task. cbn [tasks_rows]. rewrite map_map.
  apply map_ext. intros [u x]. cbn [snd].
  now destruct (tid x =? task_id).
Qed.

Lemma delete_task_ids (db : tasks_db) (task_id : Z) :
  task_ids (tasks_rows (delete_task db task_id))
  = filter (fun i => negb (i =? task_id)) (task_ids (tasks_rows db)).
Proof.
  unfold task_ids, delete_task. cbn [tasks_rows].
  induction (tasks_rows db) as [|[u x] rows IH]; [reflexivity|].
  cbn [filter map snd]. destruct (tid x =? task_id); cbn [negb map snd];
    now rewrite IH.
Qed.

(** X8. Ids stay unique and are never given twice. If the ids of the table are
    pairwise distinct and none exceeds the sequence, the same holds after
    [add_task], [toggle_task] and [delete_task]; and a task added after a
    deletion never gets the id of the deleted task. *)
Theorem task_ids_never_reused (db : tasks_db) :
  NoDup (task_ids (tasks_rows db)) -> ids_in_sequence db ->
  (forall user_id text due rb now db',
      add_task db user_id text due rb now = Done db' ->
      NoDup (task_ids (tasks_rows db')) /\ ids_in_sequence db')
  /\ (forall task_id done now,
        NoDup (task_ids (tasks_rows (toggle_task db task_id done now)))
        /\ ids_in_sequence (toggle_task db task_id done now))
  /\ (forall task_id,
        NoDup (task_ids (tasks_rows (delete_task db task_id)))
        /\ ids_in_sequence (delete_task db task_id)
        /\ forall user_id text due rb now db',
             add_task (delete_task db task_id) user_id text due rb now
             = Done db' ->
             In task_id (task_ids (tasks_rows db)) ->
             ~ In task_id (task_ids (tasks_rows db'))).
Proof.
  intros Hnd Hseq. split; [|split].
  - intros user_id text due rb now db' Hadd.
    destruct (add_task_listed_ids db db' user_id text due rb now Hadd)
      as (id & Hlt & Hseq' & Hall & Hids).
    rewrite Hids. split.
    + apply NoDup_app; repeat split; auto.
      * repeat constructor. intros [].
      * intros a Ha [<-|[]]. rewrite Forall_forall in Hall.
        specialize (Hall _ Ha). lia.
    + unfold ids_in_sequence. rewrite Hids, Hseq'.
      apply Forall_app. split; [|repeat constructor; lia].
      eapply Forall_impl; [|exact Hall]. cbn. intros a Ha. lia.
  - intros task_id done now. unfold ids_in_sequence.
    rewrite toggle_task_ids. split; assumption.
  - intros task_id.
    assert (Hseq' : ids_in_sequence (delete_task db task_id)).
    { unfold ids_in_sequence. rewrite delete_task_ids.
      apply Forall_forall. intros a Ha. apply filter_In in Ha as [Ha _].
      unfold ids_in_sequence in Hseq. rewrite Forall_forall in Hseq. auto. }
    split; [rewrite delete_task_ids; now apply NoDup_filter|].
    split; [exact Hseq'|].
    intros user_id text due rb now db' Hadd Hin.
    destruct (add_task_listed_ids _ db' user_id text due rb now Hadd)
      as (id & Hlt & _ & _ & Hids).
    rewrite Hids, delete_task_ids. intros Hin'.
    apply in_app_or in Hin' as [Hin'|[<-|[]]].
    + apply filter_In in Hin' as [_ Hne].
      rewrite Z.eqb_refl in Hne. discriminate.
    + cbn [tasks_seq delete_task] in Hlt.
      unfold ids_in_sequence in Hseq. rewrite Forall_forall in Hseq.
      specialize (Hseq _ Hin). lia.
Qed.

Lemma task_ids_never_reused_witness :
  NoDup (task_ids (tasks_rows (delete_task one_task 1)))
  /\ ids_in_sequence (delete_task one_task 1)
  /\ forall user_id text due rb now db',
       add_task (delete_task one_task 1) user_id text due rb now = Done db' ->
       In 1 (task_ids (tasks_rows one_task)) ->
       ~ In 1 (task_ids (tasks_rows db')).
Proof.
  apply (task_ids_never_reused one_task).
  - repeat constructor. intros [].
  - repeat constructor. cbn. lia.
Defined.

(** ** Event identifiers *)

Lemma str_int_inj (a b : Z) : str_int a = str_int b -> a = b.
Proof.
  unfold str_int. intros E.
  assert (Hn : forall z, Z.to_int z <> Decimal.Pos Decimal.Nil
                         /\ Z.to_int z <> Decimal.Neg Decimal.Nil).
  { intros [|p|p]; cbn; split; try discriminate;
      intros H; injection H as H;
      now apply DecimalPos.Unsigned.to_uint_nonnil in H. }
  assert (E' : Some (Z.to_int a) = Some (Z.to_int b)).
  { rewrite <- (NilZero.isi (Z.to_int a)), <- (NilZero.isi (Z.to_int b));
      try apply Hn. now rewrite E. }
  injection E' as E'.
  rewrite <- (DecimalZ.of_to a), <- (DecimalZ.of_to b). now rewrite E'.
Qed.

Lemma append_length (s1 s2 : string) :
  String.length (s1 ++ s2) = (String.length s1 + String.length s2)%nat.
Proof. induction s1 as [|c s1 IH]; cbn; [reflexivity|now rewrite IH]. Qed.

Lemma append_cancel_r (s : string) :
  forall a b, a ++ s = b ++ s -> a = b.
Proof.
  induction a as [|c a IH]; intros [|c' b] E.
  - reflexivity.
  - apply (f_equal String.length) in E. cbn in E.
    rewrite append_length in E. lia.
  - apply (f_equal String.length) in E. cbn in E.
    rewrite append_length in E. lia.
  - cbn in E. injection E as -> E. f_equal. now apply IH.
Qed.

Lemma uid_of_inj (a b : Z) : uid_of a = uid_of b -> a = b.
Proof.
  unfold uid_of. intros E. cbn in E. injection E as E.
  apply append_cancel_r in E. now apply str_int_inj.
Qed.

Lemma map_inj_NoDup {A B : Type} (f : A -> B) (l : list A) :
  (forall x y, f x = f y -> x = y) -> NoDup l -> NoDup (map f l).
Proof.
  intros Hinj. induction 1 as [|x l Hx _ IH]; cbn [map]; constructor.
  - intros Hin. apply in_map_iff in Hin as (y & Hy & Hin).
    apply Hinj in Hy. now subst y.
  - exact IH.
Qed.

Lemma uid_lines_of_events
    (fromisoformat : string -> result datetime) (tasks : list task_row) :
  filter (String.prefix "UID:") (flat_map (event_lines fromisoformat) tasks)
  = map (fun i => "UID:" ++ uid_of i)
        (map tid (filter (is_dated fromisoformat) tasks)).
Proof.
  induction tasks as [|t tasks IH]; [reflexivity|].
  cbn [flat_map filter]. rewrite filter_app, IH.
  unfold is_dated, event_lines.
  destruct (dated fromisoformat t) as [d|]; [|reflexivity].
  cbn [map]. reflexivity.
Qed.

(** X9. When the task ids of a list are pairwise distinct, the [UID] lines of its
    calendar are pairwise distinct: they are the lines [UID:task-<id>@...] of
    the dated rows, in order, and different ids print differently. *)
Theorem export_uids_distinct
    (fromisoformat : string -> result datetime) (tasks : list task_row) :
  NoDup (map tid tasks) ->
  exists lines,
    ics_lines fromisoformat tasks = Ret lines
    /\ filter (String.prefix "UID:") lines
       = map (fun i => "UID:" ++ uid_of i)
             (map tid (filter (is_dated fromisoformat) tasks))
    /\ NoDup (filter (String.prefix "UID:") lines).
Proof.
  intros Hnd. eexists. split; [apply ics_lines_flat_map|].
  assert (E : filter (String.prefix "UID:")
                (ics_header
                 ++ flat_map (event_lines fromisoformat) tasks
                 ++ ["END:VCALENDAR"])%list
              = map (fun i => "UID:" ++ uid_of i)
                    (map tid (filter (is_dated fromisoformat) tasks))).
  { rewrite !filter_app, uid_lines_of_events.
    cbn [ics_header filter String.prefix app]. apply app_nil_r. }
  split; [exact E|]. rewrite E.
  apply map_inj_NoDup.
  - intros x y H. cbn [append] in H. injection H as H.
    apply append_cancel_r in H. now apply str_int_inj.
  - clear E. induction tasks as [|t tasks IH]; [constructor|].
    cbn [map] in Hnd. inversion Hnd as [|? ? Hnotin Hnd']; subst.
    cbn [filter]. destruct (is_dated fromisoformat t); [|now apply IH].
    cbn [map]. constructor; [|now apply IH].
    intros Hin. apply Hnotin. apply in_map_iff in Hin as (x & Hx & Hin).
    apply filter_In in Hin as [Hin _]. apply in_map_iff. eauto.
Qed.

Lemma export_uids_distinct_witness :
  exists lines,
    ics_lines isoformat_parse [essay; gym; handed_in] = Ret lines
    /\ filter (String.prefix "UID:") lines
       = map (fun i => "UID:" ++ uid_of i)
             (map tid (filter (is_dated isoformat_parse)
                              [essay; gym; handed_in]))
    /\ NoDup (filter (String.prefix "UID:") lines).
Proof.
  apply (export_uids_distinct isoformat_parse [essay; gym; handed_in]).
  cbn. repeat constructor; cbn; intuition discriminate.
Defined.

(** ** Accounts *)

Module UsersProperties.

Import Users.

Section Auth.

Variable sha256_hexdigest : string -> string.
Variable strip_lower : string -> string.

Lemma is_empty_true (s : string) : is_empty s = true <-> s = "".
Proof. destruct s; cbn; split; congruence. Qed.

Lemma find_name_none (l : list row) (name : string) :
  existsb (fun r => String.eqb (username r) name) l = false ->
  find (fun r => String.eqb (username r) name) l = None.
Proof.
  induction l as [|r l IH]; [reflexivity|]. cbn [existsb find].
  destruct (String.eqb (username r) name); [discriminate|exact IH].
Qed.

Lemma find_app {A : Type} (f : A -> bool) (l1 l2 : list A) :
  find f (l1 ++ l2)
  = match find f l1 with Some x => Some x | None => find f l2 end.
Proof.
  induction l1 as [|a l1 IH]; [reflexivity|]. cbn [app find].
  destruct (f a); [reflexivity|exact IH].
Qed.

Lemma create_user_inv (db db' : table) (u p token now : string) (msg : string) :
  create_user sha256_hexdigest strip_lower db u p token now
  = Done (db', (true, msg)) ->
  strip_lower u <> "" /\ p <> ""
  /\ existsb (fun r => String.eqb (username r) (strip_lower u)) (rows db)
     = false
  /\ Forall (fun r => id r < seq db') (rows db)
  /\ rows db'
     = (rows db
        ++ [mkUser (seq db') (strip_lower u) token
                   (hash_password sha256_hexdigest p token) now])%list.
Proof.
  unfold create_user, insert_user, next_rowid.
  destruct (is_empty (strip_lower u)) eqn:Hu; [discriminate|].
  destruct (is_empty p) eqn:Hp; [discriminate|]. cbn [orb].
  destruct (fold_max_ge (map id (rows db)) (seq db)) as [_ Hi].
  destruct (_ <? MAX_ROWID); [|discriminate].
  destruct (existsb _ (rows db)) eqn:Hex; [discriminate|].
  intros E. injection E as <- _. cbn [rows seq].
  split; [intros H; apply is_empty_true in H; congruence|].
  split; [intros H; apply is_empty_true in H; congruence|].
  split; [reflexivity|]. split; [|reflexivity].
  apply Forall_forall. intros r Hr. rewrite Forall_forall in Hi.
  specialize (Hi (id r) (in_map id _ _ Hr)). cbn in Hi. lia.
Qed.


(** X12. After a successful [create_user] the new account can sign in with the
    password it was created with, under every spelling of the user name that
    strips and lowers to the same text; it gets the new id, which is larger
    than every id in the table before. *)
Theorem create_then_authenticate (db db' : table) (u p token now msg : string) :
  create_user sha256_hexdigest strip_lower db u p token now
  = Done (db', (true, msg)) ->
  forall u', strip_lower u' = strip_lower u ->
    authenticate sha256_hexdigest strip_lower db' u' p = Some (seq db')
    /\ Forall (fun r => id r < seq db') (rows db).
Proof.
  intros Hc u' Hu'.
  destruct (create_user_inv _ _ _ _ _ _ _ Hc) as (_ & _ & Hex & Hlt & Hrows).
  split; [|exact Hlt].
  unfold authenticate. rewrite Hu', Hrows, find_app.
  rewrite (find_name_none _ _ Hex). cbn [find username].
  rewrite String.eqb_refl. cbn [salt password_hash id].
  now rewrite String.eqb_refl.
Qed.

(** X13. A successful [create_user] changes the outcome of [authenticate] for no
    other user name. *)
Theorem create_user_keeps_others (db db' : table)
    (u p token now msg : string) :
  create_user sha256_hexdigest strip_lower db u p token now
  = Done (db', (true, msg)) ->
  forall u' p', strip_lower u' <> strip_lower u ->
    authenticate sha256_hexdigest strip_lower db' u' p'
    = authenticate sha256_hexdigest strip_lower db u' p'.
Proof.
  intros Hc u' p' Hne.
  destruct (create_user_inv _ _ _ _ _ _ _ Hc) as (_ & _ & _ & _ & Hrows).
  unfold authenticate. rewrite Hrows, find_app.
  destruct (find _ (rows db)); [reflexivity|].
  cbn [find username].
  replace (String.eqb (strip_lower u) (strip_lower u')) with false;
    [reflexivity|].
  symmetry. apply String.eqb_neq. congruence.
Qed.


(** X15. User names and ids stay unique: when they are pairwise distinct in the
    table they still are after [create_user], whatever it answers. *)
Theorem create_user_keeps_unique (db db' : table)
    (u p token now : string) (answer : bool * string) :
  NoDup (map username (rows db)) -> NoDup (map id (rows db)) ->
  create_user sha256_hexdigest strip_lower db u p token now
  = Done (db', answer) ->
  NoDup (map username (rows db')) /\ NoDup (map id (rows db')).
Proof.
  intros Hn Hi Hc. destruct answer as [[|] msg].
  - destruct (create_user_inv _ _ _ _ _ _ _ Hc) as (_ & _ & Hex & Hlt & Hrows).
    rewrite Hrows, !map_app. cbn [map username id]. split.
    + apply NoDup_app; repeat split; auto.
      * repeat constructor. intros [].
      * intros a Ha [<-|[]]. apply in_map_iff in Ha as (r & Hname & Hr).
        assert (Ht : existsb (fun r => String.eqb (username r) (strip_lower u))
                             (rows db) = true).
        { apply existsb_exists. exists r. split; [exact Hr|].
          rewrite Hname. apply String.eqb_refl. }
        congruence.
    + apply NoDup_app; repeat split; auto.
      * repeat constructor. intros [].
      * intros a Ha [<-|[]]. apply in_map_iff in Ha as (r & Hid & Hr).
        rewrite Forall_forall in Hlt. specialize (Hlt r Hr). lia.
  - unfold create_user, insert_user in Hc.
    destruct (is_empty (strip_lower u) || is_empty p);
      [injection Hc as <- _; auto|].
    unfold next_rowid in Hc. destruct (_ <? MAX_ROWID); [|discriminate].
    destruct (existsb _ (rows db)); [|discriminate].
    injection Hc as <- _. auto.
Qed.

End Auth.

Lemma create_then_authenticate_witness :
  authenticate toy_digest toy_strip_lower one_user "bob" "secret"
  = Some (seq one_user)
  /\ Forall (fun r => id r < seq one_user) (rows no_users).
Proof.
  apply (create_then_authenticate toy_digest toy_strip_lower no_users one_user
           "bob" "secret" "00ff" "2025-03-01T08:00:00" "Account created.");
    reflexivity.
Defined.

Lemma create_user_keeps_others_witness :
  authenticate toy_digest toy_strip_lower one_user "alice" "secret"
  = authenticate toy_digest toy_strip_lower no_users "alice" "secret".
Proof.
  apply (create_user_keeps_others toy_digest toy_strip_lower no_users one_user
           "bob" "secret" "00ff" "2025-03-01T08:00:00" "Account created.");
    [reflexivity|discriminate].
Defined.

Lemma create_user_keeps_unique_witness :
  NoDup (map username (rows one_user)) /\ NoDup (map id (rows one_user)).
Proof.
  apply (create_user_keeps_unique toy_digest toy_strip_lower no_users one_user
           "bob" "secret" "00ff" "2025-03-01T08:00:00"
           (true, "Account created."));
    [constructor|constructor|reflexivity].
Defined.

End UsersProperties.

(** ** The timetable *)

Module TimetableProperties.

Import Timetable.

(** X16. [save_timetable] never writes: the table has no uniqueness constraint on
    [(user_id, day, slot)], so the first statement is refused with
    [OperationalError]; only a table without any cell gets through, and then
    there is nothing to store. *)
Theorem save_timetable_never_writes (st : list row * Z) (user_id : Z)
    (table : list (string * list (string * string))) :
  (cells_of table = [] /\ save_timetable st user_id table = Done st)
  \/ (cells_of table <> []
      /\ save_timetable st user_id table = Failed OperationalError).
Proof.
  unfold save_timetable. destruct (cells_of table) as [|[[d s] subj] cells].
  - left. split; reflexivity.
  - right. split; [discriminate|reflexivity].
Qed.

Lemma key_eqb_eq (a b : key) : key_eqb a b = true <-> a = b.
Proof.
  destruct a as [x|], b as [y|]; cbn; try (split; congruence).
  rewrite String.eqb_eq. split; congruence.
Qed.

Lemma dict_get_set_none {V : Type} (d : dict key V) (k k' : key) (v : V) :
  dict_get d k <> None ->
  (dict_get (dict_set d k v) k' = None <-> dict_get d k' = None).
Proof.
  induction d as [|[k0 v0] d IH]; cbn [dict_get dict_set]; [congruence|].
  destruct (key_eqb k0 k) eqn:Hk; intros Hget.
  - cbn [dict_get]. destruct (key_eqb k0 k'); [split; discriminate|reflexivity].
  - cbn [dict_get]. destruct (key_eqb k0 k'); [split; discriminate|].
    now apply IH.
Qed.

Lemma put_all_none (rs : list row) :
  forall table,
    put_all table rs = None
    <-> exists r, In r rs /\ dict_get table (day r) = None.
Proof.
  induction rs as [|r rs IH]; intros table; cbn [put_all].
  - split; [discriminate|]. intros (r & [] & _).
  - unfold put. destruct (dict_get table (day r)) as [inner|] eqn:Hget.
    + rewrite IH. split.
      * intros (r' & Hin & Hnone). exists r'. split; [now right|].
        apply (dict_get_set_none table (day r)) in Hnone; [exact Hnone|].
        congruence.
      * intros (r' & [<- | Hin] & Hnone); [congruence|].
        exists r'. split; [exact Hin|].
        apply dict_get_set_none; [congruence|exact Hnone].
    + split; [|reflexivity]. intros _. exists r. split; [now left|exact Hget].
Qed.

(** X17. [get_timetable] raises [KeyError] exactly when some row of the user names
    a day that is not one of Mon to Fri (a NULL day included); a user without
    rows gets the blank grid. *)
Theorem get_timetable_key_error (rows : list row) (user_id : Z) :
  (get_timetable rows user_id = None
   <-> exists r, In r rows /\ Timetable.user_id r = Some user_id
                 /\ ~ In (day r) (map Some days))
  /\ ((forall r, In r rows -> Timetable.user_id r <> Some user_id) ->
      get_timetable rows user_id = Some blank).
Proof.
  unfold get_timetable. split.
  - rewrite put_all_none. split.
    + intros (r & Hin & Hnone). apply filter_In in Hin as [Hin Hown].
      exists r. split; [exact Hin|]. unfold owned_by in Hown.
      destruct (Timetable.user_id r) as [u|] eqn:Hu; [|discriminate].
      apply Z.eqb_eq in Hown. subst u. split; [reflexivity|].
      intros Hday. cbn in Hday.
      destruct Hday as [H|[H|[H|[H|[H|[]]]]]]; rewrite <- H in Hnone;
        discriminate.
    + intros (r & Hin & Hu & Hday). exists r. split.
      * apply filter_In. split; [exact Hin|]. unfold owned_by.
        rewrite Hu. apply Z.eqb_refl.
      * destruct (dict_get blank (day r)) as [inner|] eqn:Hget; [|reflexivity].
        exfalso. apply Hday. unfold blank, days in Hget |- *.
        cbn [map dict_get] in Hget |- *.
        repeat match type of Hget with
               | (if key_eqb ?a ?b then _ else _) = _ =>
                   let E := fresh "E" in
                   destruct (key_eqb a b) eqn:E;
                     [apply key_eqb_eq in E; rewrite <- E; cbn; tauto|]
               end.
        discriminate.
  - intros Hnone. replace (filter (owned_by user_id) rows) with (@nil row);
      [reflexivity|].
    symmetry. induction rows as [|r rows IH]; [reflexivity|].
    cbn [filter]. unfold owned_by at 1.
    destruct (Timetable.user_id r) as [u|] eqn:Hu.
    + destruct (Z.eqb_spec u user_id) as [->|_].
      * exfalso. apply (Hnone r); [now left|exact Hu].
      * apply IH. intros r' Hr'. apply Hnone. now right.
    + apply IH. intros r' Hr'. apply Hnone. now right.
Qed.

End TimetableProperties.

(** ** Flashcards *)

Module CardsProperties.

Import Cards.

Lemma sort_app_last {A : Type} (leb : A -> A -> bool) (x : A) (l : list A) :
  Forall (fun a => leb a x = false) l ->
  sort leb (l ++ [x]) = x :: sort leb l.
Proof.
  induction 1 as [|a l Ha _ IH]; [reflexivity|].
  cbn [app sort]. rewrite IH. cbn [insert]. now rewrite Ha.
Qed.

(** X18. A flashcard that was just added is the first of its owner's list, with
    the rest of the list as it was; the lists of the other users do not
    change. *)
Theorem add_flashcard_first (db db' : table) (user_id : Z)
    (question answer now : string) :
  add_flashcard db user_id question answer now = Done db' ->
  list_flashcards db' user_id
  = (seq db', question, answer) :: list_flashcards db user_id
  /\ (forall other, other <> user_id ->
        list_flashcards db' other = list_flashcards db other).
Proof.
  unfold add_flashcard, next_rowid.
  destruct (fold_max_ge (map id (rows db)) (seq db)) as [_ Hi].
  destruct (_ <? MAX_ROWID); [|discriminate].
  intros E. injection E as <-. cbn [rows seq]. unfold list_flashcards.
  cbn [rows]. split.
  - rewrite filter_app. cbn [filter Cards.user_id]. rewrite Z.eqb_refl.
    rewrite sort_app_last; [reflexivity|].
    apply Forall_forall. intros a Ha. apply filter_In in Ha as [Ha _].
    unfold id_desc. cbn [id]. apply Z.leb_gt.
    rewrite Forall_forall in Hi. specialize (Hi (id a) (in_map id _ _ Ha)).
    cbn in Hi. lia.
  - intros other Hne. rewrite filter_app. cbn [filter Cards.user_id].
    replace (user_id =? other) with false
      by (symmetry; apply Z.eqb_neq; congruence).
    now rewrite app_nil_r.
Qed.

Lemma add_flashcard_first_witness :
  list_flashcards
    (mkTable [mkCard 1 7 "2+2?" "4" "2025-03-01T08:00:00";
              mkCard 2 7 "Capital of France?" "Paris" "2025-03-02T08:00:00"] 2)
    7
  = (2, "Capital of France?", "Paris")
      :: list_flashcards
           (mkTable [mkCard 1 7 "2+2?" "4" "2025-03-01T08:00:00"] 1) 7
  /\ (forall other, other <> 7 ->
        list_flashcards
          (mkTable [mkCard 1 7 "2+2?" "4" "2025-03-01T08:00:00";
                    mkCard 2 7 "Capital of France?" "Paris"
                           "2025-03-02T08:00:00"] 2) other
        = list_flashcards
            (mkTable [mkCard 1 7 "2+2?" "4" "2025-03-01T08:00:00"] 1) other).
Proof.
  apply (add_flashcard_first
           (mkTable [mkCard 1 7 "2+2?" "4" "2025-03-01T08:00:00"] 1)
           (mkTable [mkCard 1 7 "2+2?" "4" "2025-03-01T08:00:00";
                     mkCard 2 7 "Capital of France?" "Paris"
                            "2025-03-02T08:00:00"] 2)
           7 "Capital of France?" "Paris" "2025-03-02T08:00:00").
  reflexivity.
Defined.

End CardsProperties.

(** ** Deleting a note *)

Module NoteStoreProperties.

Import Notes NoteStore.

Lemma ustr_eqb_eq (a b : ustr) : ustr_eqb a b = true <-> a = b.
Proof.
  revert b. induction a as [|x a IH]; intros [|y b]; cbn;
    try (split; congruence).
  rewrite andb_true_iff, Z.eqb_eq, IH.
  split; [intros [-> ->]; reflexivity|intros E; injection E; auto].
Qed.

(** X19. [delete_note] always removes the rows with that id and no other row,
    whatever happens to the attachment. The file system changes only when the
    note has an attachment whose path exists as a file: then exactly the
    entries with that path go; a missing path, a directory, an empty or absent
    attachment, or an unknown note id leave the file system as it was. *)
Theorem delete_note_effect (db : notes_table) (fs : filesystem)
    (note_id : Z) :
  (forall r, In r (fst (delete_note db fs note_id))
             <-> In r db /\ nid (snd r) <> note_id)
  /\ (forall e, In e (snd (delete_note db fs note_id)) -> In e fs)
  /\ match find (fun r => nid (snd r) =? note_id) db with
     | Some r =>
         match attachment (snd r) with
         | Some (c :: p) =>
             match find (fun e => ustr_eqb (fst e) (c :: p)) fs with
             | Some (_, File) =>
                 forall e, In e (snd (delete_note db fs note_id))
                           <-> In e fs /\ fst e <> c :: p
             | _ => snd (delete_note db fs note_id) = fs
             end
         | _ => snd (delete_note db fs note_id) = fs
         end
     | None => snd (delete_note db fs note_id) = fs
     end.
Proof.
  unfold delete_note. cbn [fst snd]. split; [|split].
  - intros r. rewrite filter_In, negb_true_iff, Z.eqb_neq. reflexivity.
  - intros e. destruct (find _ db) as [r|]; [|auto].
    destruct (truthy (attachment (snd r))); [|auto].
    unfold remove_attachment, unlink.
    destruct (path_exists fs _); [|auto].
    destruct (find _ fs) as [[q [|]]|]; auto.
    intros H. now apply filter_In in H.
  - destruct (find _ db) as [r|]; [|reflexivity].
    destruct (attachment (snd r)) as [[|c p]|]; try reflexivity.
    cbn [truthy text_of]. unfold remove_attachment, unlink, path_exists.
    destruct (find _ fs) as [[q [|]]|] eqn:Hf.
    + assert (Hex : existsb (fun e => ustr_eqb (fst e) (c :: p)) fs = true).
      { apply find_some in Hf as [Hin Heq]. apply existsb_exists. eauto. }
      rewrite Hex. intros e. rewrite filter_In, negb_true_iff.
      split; intros [Hin Hne]; (split; [exact Hin|]).
      * intros Heq. apply ustr_eqb_eq in Heq. congruence.
      * destruct (ustr_eqb (fst e) (c :: p)) eqn:Heq; [|reflexivity].
        apply ustr_eqb_eq in Heq. contradiction.
    + now destruct (existsb _ fs).
    + now destruct (existsb _ fs).
Qed.

End NoteStoreProperties.

(** ** From the form to the listing *)

(** X10. A task submitted through the form with a description, a valid date and a
    valid time without microseconds is afterwards in its owner's listing, open,
    with the lead that was entered, and its due date parses to the instant
    that was entered: the planner and the export never skip it as
    malformed. *)
Theorem submitted_task_is_dated (db db' : tasks_db) (user_id : Z)
    (text : string) (d : date) (t : time) (lead : Z)
    (now : string) :
  text <> "" -> valid_date d -> valid_time t -> microsecond t = 0 ->
  page_tasks_submit db user_id text (Some d) t lead now = Done db' ->
  exists row,
    In row (list_tasks (tasks_rows db') user_id)
    /\ tid row = tasks_seq db' /\ task row = text /\ done row = 0
    /\ remind_before row = Some lead
    /\ dated isoformat_parse row = Some (combine d t).
Proof.
  intros Htext Hd Ht Hus. unfold page_tasks_submit.
  destruct text as [|c text]; [congruence|].
  destruct (form_due_str_value d t Hd Ht Hus) as [-> Hparse].
  unfold add_task.
  destruct (fits_integer _ && fits_integer _); [|discriminate].
  destruct (next_rowid _ _) as [id|e]; [|discriminate].
  intros E. injection E as <-. cbn [tasks_rows tasks_seq].
  eexists. split; [apply list_tasks_In, in_or_app; right; left; reflexivity|].
  cbn [tid task done remind_before or0].
  repeat (split; [reflexivity|]).
  unfold dated. cbn [due_date text_of].
  replace (isoformat_parse _) with (Ret (combine d t))
    by (symmetry; exact Hparse).
  reflexivity.
Qed.

Lemma submitted_task_is_dated_witness :
  exists row,
    In row (list_tasks (tasks_rows one_task) 7)
    /\ tid row = tasks_seq one_task /\ task row = "Essay" /\ done row = 0
    /\ remind_before row = Some 0
    /\ dated isoformat_parse row
       = Some (combine (mkdate 2025 3 10) (mktime 9 0 0 0)).
Proof.
  apply (submitted_task_is_dated empty_tasks one_task 7 "Essay"
           (mkdate 2025 3 10) (mktime 9 0 0 0) 0 "2025-03-01T08:00:00");
    unfold valid_date, valid_time; cbn; try lia; try discriminate;
    reflexivity.
Defined.
